(** * Electrochemical potential converter (app.py)

    A shallow embedding of the conversion core of [app.py] (the table
    [REFERENCE_POTENTIALS] and the function [convert_potential]) and of the
    part of the Streamlit script that drives it (swap, convert and clear
    buttons, the session state and the conversion history).

    Python's [float] is IEEE 754 binary64.  It is modelled by [spec_float]
    of the standard library at precision 53 and maximal exponent 1024, with
    the library's specification of addition, subtraction and comparison.
    The accuracy results are proved from that specification: the section
    [Rounding] shows that [SFadd] and [SFsub] return the exact result
    rounded with relative error at most [2^-53]. *)

From Stdlib Require Import ZArith Lia List String Ascii Bool.
From Stdlib Require Import Floats.SpecFloat.
From Stdlib Require Import DecimalString.
From stdpp Require Import base option list gmap strings.

Local Open Scope string_scope.
Local Open Scope list_scope.
Local Open Scope Z_scope.

(* ===================================================================== *)
(** * Python floats                                                       *)
(* ===================================================================== *)

Module Float64.

Definition prec : Z := 53.
Definition emax : Z := 1024.

Definition float : Type := spec_float.

(** The values of type [spec_float] that are binary64 numbers: the
    mantissa of a finite number is canonical and its exponent in range. *)
Definition is_float (x : float) : bool := valid_binary prec emax x.

Definition is_nan (x : float) : bool :=
  match x with S754_nan => true | _ => false end.

Definition is_finite (x : float) : bool :=
  match x with
  | S754_zero _ | S754_finite _ _ _ => true
  | S754_infinity _ | S754_nan => false
  end.

(** [x + y], [x - y] and [x == y] on Python floats. *)
Definition add (x y : float) : float := SFadd prec emax x y.
Definition sub (x y : float) : float := SFsub prec emax x y.
Definition eqb (x y : float) : bool := SFeqb x y.

Definition zero : float := S754_zero false.

(** A finite positive float given by mantissa and exponent:
    [mk m e] is [m * 2^e]. *)
Definition mk (m : positive) (e : Z) : float := S754_finite false m e.

(** [nearest_thousandth n x]: [x] is the binary64 number nearest to the
    decimal [n / 1000], the value Python's parser gives to the literal
    with these digits.  For a finite [x = m * 2^e] with [e < 0] the
    distance [|n/1000 - m * 2^e|] is below half a unit in the last place,
    and when [m] is the least 53-bit mantissa (where the numbers below
    are twice as dense) [x] is exactly [n / 1000]. *)
Definition nearest_thousandth (n : Z) (x : float) : bool :=
  match x with
  | S754_zero false => n =? 0
  | S754_finite false m e =>
      let d := Z.abs (1000 * Zpos m - n * 2 ^ (- e)) in
      is_float x && (e <? 0) && (2 * d <? 1000)
      && (negb (Zpos m =? 2 ^ (prec - 1)) || (d =? 0))
  | _ => false
  end.

(** The value of a finite float in units of [2^-1074], the least positive
    binary64 number: every finite float is a whole number of them.
    Infinities and NaN are given [0]. *)
Definition scaled (x : float) : Z :=
  match x with
  | S754_finite s m e => cond_Zopp s (Zpos m * 2 ^ (e + 1074))
  | _ => 0
  end.

(** [1.0] in these units. *)
Definition one : Z := 2 ^ 1074.

(** Twice the least magnitude that rounds to infinity,
    [2 * (2^1024 - 2^970)], in these units. *)
Definition huge : Z := (2 ^ 54 - 1) * 2 ^ 2045.

(** [within_tolerance k r v]: both are finite and
    [|r - v| <= 2^-k * max(|v|, 1)], the test
    [math.isclose(r, v, rel_tol=2**-k, abs_tol=2**-k)]. *)
Definition within_tolerance (k : Z) (r v : float) : bool :=
  is_finite r && is_finite v &&
  (Z.abs (scaled r - scaled v) * 2 ^ k <=? Z.max (Z.abs (scaled v)) one).

(** An offset of the table: a finite float between [0.0] and [1.0]. *)
Definition is_offset (a : float) : bool :=
  is_float a && is_finite a && (0 <=? scaled a) && (scaled a <=? one).

End Float64.

Abbreviation float := Float64.float.

(* ===================================================================== *)
(** * Exceptions and results                                              *)
(* ===================================================================== *)

(** The exceptions that the script can raise: [KeyError] from a dictionary
    subscript, and Streamlit's [RerunException], which
    [st.experimental_rerun()] raises to stop the script. *)
Inductive exn : Type :=
| KeyError (key : string)
| RerunException.

Inductive result (A : Type) : Type :=
| Return (a : A)
| Raise (e : exn).
Arguments Return {A} a.
Arguments Raise {A} e.

Definition bind_result {A B} (r : result A) (k : A -> result B) : result B :=
  match r with
  | Return a => k a
  | Raise e => Raise e
  end.

(* ===================================================================== *)
(** * The reference table                                                 *)
(* ===================================================================== *)

(** A dictionary display [{k1: v1, ..., kn: vn}] inserts its items from
    left to right; a later item with the same key overwrites the value. *)
Definition dict_display {V} (items : list (string * V)) : gmap string V :=
  foldl (fun d kv => <[kv.1 := kv.2]> d) ∅ items.

(** [d[k]] *)
Definition dict_getitem {V} (d : gmap string V) (k : string) : result V :=
  match d !! k with
  | Some v => Return v
  | None => Raise (KeyError k)
  end.

(** The items of the display at lines 12-29, in source order.  Each
    literal is written as the binary64 number the parser produces for it
    (see [REFERENCE_POTENTIALS_millivolts]). *)
Definition REFERENCE_POTENTIALS_items : list (string * float) :=
  [ ("NHE (Normal Hydrogen)",                    Float64.zero)
  ; ("SHE (Standard Hydrogen)",                  Float64.zero)
  ; ("Calomel (Sat'd KCl)",                      Float64.mk 8682940081570316 (-55))
  ; ("Calomel (3.5M KCl)",                       Float64.mk 4503599627370496 (-54))
  ; ("Calomel (1M KCl)",                         Float64.mk 5044031582654956 (-54))
  ; ("Calomel (0.1M KCl)",                       Float64.mk 6016809102166983 (-54))
  ; ("Ag/AgCl (Sat'd KCl)",                      Float64.mk 7097673012735902 (-55))
  ; ("Ag/AgCl (3.5M KCl)",                       Float64.mk 7385903388887613 (-55))
  ; ("Ag/AgCl (3M KCl)",                         Float64.mk 7566047373982433 (-55))
  ; ("Ag/AgCl (0.1M KCl)",                       Float64.mk 5188146770730811 (-54))
  ; ("Mercury/Mercurous Sulfate (0.5M H₂SO₄)",   Float64.mk 6142909891733357 (-53))
  ; ("Mercury/Mercurous Sulfate (1M H₂SO₄)",     Float64.mk 6070852297695429 (-53))
  ; ("Mercury/Mercurous Sulfate (Sat'd K₂SO₄)",  Float64.mk 5764607523034235 (-53))
  ; ("Hg/HgO (1M NaOH)",                         Float64.mk 7061644215716938 (-56))
  ; ("Hg/HgO (20% KOH)",                         Float64.mk 6845471433603154 (-56))
  ; ("Silver/Silver Sulfate (Sat'd K₂SO₄)",      Float64.mk 5890708312600609 (-53))
  ].

Definition REFERENCE_POTENTIALS : gmap string float :=
  dict_display REFERENCE_POTENTIALS_items.

(** The decimal literals of lines 13-28, in thousandths of a volt. *)
Definition REFERENCE_POTENTIALS_millivolts : list (string * Z) :=
  [ ("NHE (Normal Hydrogen)",                    0)
  ; ("SHE (Standard Hydrogen)",                  0)
  ; ("Calomel (Sat'd KCl)",                      241)
  ; ("Calomel (3.5M KCl)",                       250)
  ; ("Calomel (1M KCl)",                         280)
  ; ("Calomel (0.1M KCl)",                       334)
  ; ("Ag/AgCl (Sat'd KCl)",                      197)
  ; ("Ag/AgCl (3.5M KCl)",                       205)
  ; ("Ag/AgCl (3M KCl)",                         210)
  ; ("Ag/AgCl (0.1M KCl)",                       288)
  ; ("Mercury/Mercurous Sulfate (0.5M H₂SO₄)",   682)
  ; ("Mercury/Mercurous Sulfate (1M H₂SO₄)",     674)
  ; ("Mercury/Mercurous Sulfate (Sat'd K₂SO₄)",  640)
  ; ("Hg/HgO (1M NaOH)",                         98)
  ; ("Hg/HgO (20% KOH)",                         95)
  ; ("Silver/Silver Sulfate (Sat'd K₂SO₄)",      654)
  ].

(** [list(REFERENCE_POTENTIALS.keys())]: the keys in insertion order. *)
Definition REFERENCE_POTENTIALS_keys : list string :=
  REFERENCE_POTENTIALS_items.*1.

(* ===================================================================== *)
(** * The converter                                                       *)
(* ===================================================================== *)

(** Lines 32-54.  The subscript of line 51 is evaluated before that of
    line 52, so an unknown [from_ref] is the key of the [KeyError] when
    both names are unknown. *)
Definition convert_potential (potential : float) (from_ref to_ref : string)
  : result float :=
  bind_result (dict_getitem REFERENCE_POTENTIALS from_ref) (fun off_from =>
  let potential_vs_she := Float64.add potential off_from in
  bind_result (dict_getitem REFERENCE_POTENTIALS to_ref) (fun off_to =>
  let potential_vs_target := Float64.sub potential_vs_she off_to in
  Return potential_vs_target)).

(* ===================================================================== *)
(** * Formatting                                                          *)
(* ===================================================================== *)

(** [m * 2^e * 1000] rounded to the nearest integer, ties to even: the
    digits that the format [.3f] prints for the float [m * 2^e]. *)
Definition thousandths (m : positive) (e : Z) : Z :=
  let n := 1000 * Zpos m in
  if 0 <=? e then n * 2 ^ e
  else
    let d := 2 ^ (- e) in
    let q := n / d in
    match 2 * (n mod d) ?= d with
    | Lt => q
    | Gt => q + 1
    | Eq => if Z.even q then q else q + 1
    end.

Definition digits (n : Z) : string := NilZero.string_of_uint (N.to_uint (Z.to_N n)).

Definition zfill3 (s : string) : string :=
  match String.length s with
  | 0%nat => "000" +:+ s
  | 1%nat => "00" +:+ s
  | 2%nat => "0" +:+ s
  | _ => s
  end.

(** [f"{x:.3f}"] *)
Definition format_3f (x : float) : string :=
  match x with
  | S754_nan => "nan"
  | S754_infinity s => if s then "-inf" else "inf"
  | S754_zero s => if s then "-0.000" else "0.000"
  | S754_finite s m e =>
      let t := thousandths m e in
      (if s then "-" else "") +:+ digits (t / 1000) +:+ "." +:+ zfill3 (digits (t mod 1000))
  end.

(* ===================================================================== *)
(** * The Streamlit script                                                *)
(* ===================================================================== *)

(** An entry of the conversion history (the dictionary of lines 123-129). *)
Record ConversionRecord : Type := {
  Input_Potential : string;
  From_Reference : string;
  To_Reference : string;
  Result : string;
  Timestamp : string
}.

(** [st.session_state], restricted to the three keys the script uses. *)
Record session_state : Type := {
  ss_from_ref : option string;
  ss_to_ref : option string;
  ss_conversion_history : option (list ConversionRecord)
}.

Definition empty_session : session_state :=
  {| ss_from_ref := None; ss_to_ref := None; ss_conversion_history := None |}.

(** The elements of the page that depend on the session state or on a
    conversion: the [st.success] box of line 113, the [st.dataframe] of
    the history of line 163 and the [st.info] notice of line 169.  The
    title and the texts (lines 57-62 and 172-190), the subheaders, the
    input widgets, the buttons and the sidebar are on the page in every
    run that reaches them and are not recorded. *)
Inductive element : Type :=
| Success (body : string)
| Dataframe (rows : list ConversionRecord)
| Info (body : string).

Inductive button : Type := SwapReferences | Convert | ClearHistory.

Definition button_eqb (a b : button) : bool :=
  match a, b with
  | SwapReferences, SwapReferences | Convert, Convert | ClearHistory, ClearHistory => true
  | _, _ => false
  end.

(** The values of the input widgets: the number input of line 71 and the
    two select boxes of lines 79 and 85.  The select boxes have no [key],
    so the session state never changes what they return. *)
Record widgets : Type := {
  potential_value : float;
  from_ref : string;
  to_ref : string
}.

(** The floats of the literals [0.350] and [0.547]. *)
Definition potential_0_350 : float := Float64.mk 6305039478318694 (-54).
Definition potential_0_547 : float := Float64.mk 4926937992343323 (-53).

(** The defaults of lines 73, 82 and 88. *)
Definition initial_widgets : widgets :=
  {| potential_value := potential_0_350;
     from_ref := "Ag/AgCl (Sat'd KCl)";
     to_ref := "SHE (Standard Hydrogen)" |}.

(** The state a run of the script works on: the session state, which
    outlives the run, and the elements of type [element] that the run has
    shown so far, in the order of the page. *)
Record run_state : Type := {
  session : session_state;
  page : list element
}.

(** A script computation: it reads and writes the run state and either
    returns or raises.  What was written before an exception stays. *)
Definition script (A : Type) : Type := run_state -> result A * run_state.

Definition ret {A} (a : A) : script A := fun st => (Return a, st).

Definition bind {A B} (c : script A) (k : A -> script B) : script B :=
  fun st =>
    match c st with
    | (Return a, st') => k a st'
    | (Raise e, st') => (Raise e, st')
    end.

#[global] Instance script_ret : MRet script := @ret.
#[global] Instance script_bind : MBind script := fun A B k c => bind c k.

Definition raise {A} (e : exn) : script A := fun st => (Raise e, st).

Definition lift {A} (r : result A) : script A := fun st => (r, st).

Definition get_session : script session_state := fun st => (Return (session st), st).

Definition put_session (ss : session_state) : script unit :=
  fun st => (Return tt, {| session := ss; page := page st |}).

Definition emit (el : element) : script unit :=
  fun st => (Return tt, {| session := session st; page := page st ++ [el] |}).

Definition when (b : bool) (c : script unit) : script unit :=
  if b then c else ret tt.

(** [st.experimental_rerun()] *)
Definition experimental_rerun {A} : script A := raise RerunException.

(** [st.session_state['from_ref'] = v] and the like. *)
Definition set_from_ref (v : string) : script unit :=
  ss ← get_session;
  put_session {| ss_from_ref := Some v; ss_to_ref := ss_to_ref ss;
                 ss_conversion_history := ss_conversion_history ss |}.

Definition set_to_ref (v : string) : script unit :=
  ss ← get_session;
  put_session {| ss_from_ref := ss_from_ref ss; ss_to_ref := Some v;
                 ss_conversion_history := ss_conversion_history ss |}.

Definition set_conversion_history (h : list ConversionRecord) : script unit :=
  ss ← get_session;
  put_session {| ss_from_ref := ss_from_ref ss; ss_to_ref := ss_to_ref ss;
                 ss_conversion_history := Some h |}.

(** [del st.session_state['from_ref']] and [del st.session_state['to_ref']] *)
Definition del_from_ref : script unit :=
  ss ← get_session;
  match ss_from_ref ss with
  | Some _ => put_session {| ss_from_ref := None; ss_to_ref := ss_to_ref ss;
                             ss_conversion_history := ss_conversion_history ss |}
  | None => raise (KeyError "from_ref")
  end.

Definition del_to_ref : script unit :=
  ss ← get_session;
  match ss_to_ref ss with
  | Some _ => put_session {| ss_from_ref := ss_from_ref ss; ss_to_ref := None;
                             ss_conversion_history := ss_conversion_history ss |}
  | None => raise (KeyError "to_ref")
  end.

(** [st.session_state['conversion_history'].append(r)] *)
Definition append_conversion_history (r : ConversionRecord) : script unit :=
  ss ← get_session;
  match ss_conversion_history ss with
  | Some h => set_conversion_history (h ++ [r])
  | None => raise (KeyError "conversion_history")
  end.

Definition nl : string := String (ascii_of_nat 10) "".

(** The text of lines 113-116. *)
Definition success_body (potential_value : float) (from_ref : string)
    (converted_value : float) (to_ref : string) : string :=
  nl +:+ "        ### Conversion Result:" +:+
  nl +:+ "        **" +:+ format_3f potential_value +:+ " V vs. " +:+ from_ref
     +:+ "** = **" +:+ format_3f converted_value +:+ " V vs. " +:+ to_ref +:+ "**" +:+
  nl +:+ "        ".

(** The dictionary of lines 123-129. *)
Definition conversion_record (potential_value : float) (from_ref to_ref : string)
    (converted_value : float) (now : string) : ConversionRecord :=
  {| Input_Potential := format_3f potential_value +:+ " V";
     From_Reference := from_ref;
     To_Reference := to_ref;
     Result := format_3f converted_value +:+ " V";
     Timestamp := now |}.

(** [st.button(label)]: true in the run that the click on this button
    started, false in every other run. *)
Definition st_button (clicked : option button) (b : button) : bool :=
  match clicked with
  | Some c => button_eqb c b
  | None => false
  end.

(** One run of the script from line 67 to line 169, for the widget values
    [w], the button [clicked] that started the run (if any) and the time
    [now], already formatted by [strftime("%H:%M:%S")].  The sidebar
    (lines 132-155) only reads the table and is left out; of what the run
    shows, [page] records the elements of type [element] only. *)
Definition app (w : widgets) (clicked : option button) (now : string) : script unit :=
  let potential_value := potential_value w in
  let from_ref := from_ref w in
  let to_ref := to_ref w in
  (* lines 92-97 *)
  when (st_button clicked SwapReferences)
    (set_from_ref to_ref;; set_to_ref from_ref;; experimental_rerun);;
  (* lines 100-106 *)
  ss ← get_session;
  from_ref ← match ss_from_ref ss with
             | Some v => del_from_ref;; ret v
             | None => ret from_ref
             end;
  ss ← get_session;
  to_ref ← match ss_to_ref ss with
           | Some v => del_to_ref;; ret v
           | None => ret to_ref
           end;
  (* lines 109-129 *)
  when (st_button clicked Convert)
    (converted_value ← lift (convert_potential potential_value from_ref to_ref);
     emit (Success (success_body potential_value from_ref converted_value to_ref));;
     ss ← get_session;
     when (negb (bool_decide (is_Some (ss_conversion_history ss))))
       (set_conversion_history []);;
     append_conversion_history
       (conversion_record potential_value from_ref to_ref converted_value now));;
  (* lines 161-169 *)
  ss ← get_session;
  match ss_conversion_history ss with
  | Some (r :: h) =>
      emit (Dataframe (r :: h));;
      when (st_button clicked ClearHistory)
        (set_conversion_history [];; experimental_rerun)
  | _ => emit (Info "No conversion history yet. Perform a conversion to see it here.")
  end.

(** Streamlit's script runner: it runs the script on an empty page and,
    when the script stops with [RerunException], runs it again with the
    same widget values and no button clicked.  Any other exception ends
    the run (the runner shows it on the page) and the session state keeps
    what was written before it. *)
Fixpoint run_script (fuel : nat) (w : widgets) (clicked : option button)
    (now : string) (ss : session_state) : option (result unit * run_state) :=
  match fuel with
  | O => None
  | S fuel' =>
      match app w clicked now {| session := ss; page := [] |} with
      | (Raise RerunException, st) => run_script fuel' w None now (session st)
      | (r, st) => Some (r, st)
      end
  end.

(** The conversion history as the user sees it. *)
Definition history (ss : session_state) : list ConversionRecord :=
  default [] (ss_conversion_history ss).

(** The electrode names that line 110 passes to [convert_potential]: the
    selections, unless lines 100-106 found a pending swap in the session. *)
Definition applied_from_ref (w : widgets) (ss : session_state) : string :=
  default (from_ref w) (ss_from_ref ss).

Definition applied_to_ref (w : widgets) (ss : session_state) : string :=
  default (to_ref w) (ss_to_ref ss).

(** The session state between two runs with no pending swap. *)
Definition settled (ss : session_state) : session_state :=
  {| ss_from_ref := None; ss_to_ref := None;
     ss_conversion_history := ss_conversion_history ss |}.

(* ===================================================================== *)
(** * The rest of the page and whole sessions                             *)
(* ===================================================================== *)

(** [list(REFERENCE_POTENTIALS.values())]: the offsets in insertion order. *)
Definition REFERENCE_POTENTIALS_values : list float :=
  REFERENCE_POTENTIALS_items.*2.

(** The rows of the sidebar table (lines 137-143): the keys beside the
    offsets, each offset printed by the format [{:.3f}]. *)
Definition sidebar_rows : list (string * string) :=
  zip REFERENCE_POTENTIALS_keys (format_3f <$> REFERENCE_POTENTIALS_values).

(** What lines 161-169 put on the page for a session state: the table of
    the history when it has an entry, the notice otherwise. *)
Definition history_view (ss : session_state) : element :=
  match ss_conversion_history ss with
  | Some (r :: h) => Dataframe (r :: h)
  | _ => Info "No conversion history yet. Perform a conversion to see it here."
  end.

(** One action of the user: the widget values at that moment, the button
    clicked (none when only a widget changed) and the time. *)
Record interaction : Type := {
  at_widgets : widgets;
  at_clicked : option button;
  at_time : string
}.

(** A session: the runner serves the actions one after the other on the
    session state the previous one left.  The outcomes of the runs are
    collected, oldest first. *)
Fixpoint run_session (fuel : nat) (acts : list interaction) (ss : session_state)
  : option (list (result unit) * session_state) :=
  match acts with
  | [] => Some ([], ss)
  | i :: acts' =>
      match run_script fuel (at_widgets i) (at_clicked i) (at_time i) ss with
      | None => None
      | Some (r, st) =>
          match run_session fuel acts' (session st) with
          | None => None
          | Some (rs, ss') => Some (r :: rs, ss')
          end
      end
  end.

(** The history that an action leaves, read off the buttons: Convert adds
    the record of its conversion when the converter returns, Clear empties
    the list, anything else keeps it. *)
Definition history_after (i : interaction) (h : list ConversionRecord)
  : list ConversionRecord :=
  let w := at_widgets i in
  match at_clicked i with
  | Some Convert =>
      match convert_potential (potential_value w) (from_ref w) (to_ref w) with
      | Return c =>
          h ++ [conversion_record (potential_value w) (from_ref w) (to_ref w) c (at_time i)]
      | Raise _ => h
      end
  | Some ClearHistory => []
  | _ => h
  end.

(** The least positive float, [2^-1074]. *)
Definition least_positive : float := Float64.mk 1 (-1074).

(** The table and the float operations are rewritten with their lemmas;
    [simpl] leaves them folded. *)
Arguments REFERENCE_POTENTIALS : simpl never.
Arguments Float64.add : simpl never.
Arguments Float64.sub : simpl never.

(** The state of [shr] after shifting the mantissa [M] right by the
    number of bits whose weight is [P]: the bits shifted out are [rem],
    of which the record keeps the first ([shr_r]) and whether any other is
    set ([shr_s]). *)
Definition shr_inv (M : Z) (P : Z) (mrs : shr_record) : Prop :=
  exists rem,
    0 <= shr_m mrs /\ 0 <= rem < P /\ M = shr_m mrs * P + rem /\
    (shr_r mrs = true <-> P <= 2 * rem) /\
    (shr_s mrs = false <-> (rem = 0 \/ 2 * rem = P)).

(* ===================================================================== *)
(** * Facts about floats                                                  *)
(* ===================================================================== *)

Section FloatFacts.

Lemma eqb_refl (x : float) : Float64.is_nan x = false -> Float64.eqb x x = true.
Proof.
  unfold Float64.eqb, SFeqb.
  destruct x as [s|s| |s m e]; try destruct s; simpl; try easy;
    intros _; now rewrite Z.compare_refl, Pos.compare_cont_refl.
Qed.

Lemma add_zero (x : float) :
  Float64.is_nan x = false ->
  Float64.eqb (Float64.add x Float64.zero) x = true.
Proof.
  unfold Float64.add, Float64.zero.
  destruct x as [s|s| |s m e]; try destruct s; simpl; try easy;
    intros _; apply eqb_refl; reflexivity.
Qed.

Lemma sub_zero (x : float) : Float64.sub x Float64.zero = x.
Proof.
  unfold Float64.sub, Float64.zero.
  destruct x as [s|s| |s m e]; try destruct s; reflexivity.
Qed.

(** Adding and then subtracting [0.0] gives back a float equal to [x]
    ([+0.0] for [x = -0.0], which [==] does not distinguish). *)
Lemma add_sub_zero (x : float) :
  Float64.is_nan x = false ->
  Float64.eqb (Float64.sub (Float64.add x Float64.zero) Float64.zero) x = true.
Proof. intros H. rewrite sub_zero. now apply add_zero. Qed.

End FloatFacts.

(* ===================================================================== *)
(** * Rounding: addition and subtraction are correctly rounded            *)
(* ===================================================================== *)

Section Rounding.

Lemma digits2_pos_size (m : positive) : digits2_pos m = Pos.size m.
Proof. induction m; simpl; congruence. Qed.

Lemma digits2_pos_bounds (m : positive) :
  2 ^ (Zpos (digits2_pos m) - 1) <= Zpos m < 2 ^ Zpos (digits2_pos m).
Proof.
  induction m as [m IH|m IH|]; simpl digits2_pos.
  - rewrite Pos2Z.inj_succ.
    replace (Z.succ (Z.pos (digits2_pos m)) - 1) with (Z.succ (Z.pos (digits2_pos m) - 1)) by lia.
    rewrite !Z.pow_succ_r by lia. lia.
  - rewrite Pos2Z.inj_succ.
    replace (Z.succ (Z.pos (digits2_pos m)) - 1) with (Z.succ (Z.pos (digits2_pos m) - 1)) by lia.
    rewrite !Z.pow_succ_r by lia. lia.
  - simpl. lia.
Qed.

Lemma shr_1_inv M P mrs :
  0 < P -> shr_inv M P mrs -> shr_inv M (2 * P) (shr_1 mrs).
Proof.
  intros HP (rem & Hm & Hrem & HM & Hr & Hs).
  destruct mrs as [m r s]. simpl in *.
  destruct m as [|[p|p|]|p]; try lia; simpl.
  - exists rem. simpl. repeat split; try lia; destruct r, s; simpl in *; intuition lia.
  - exists (P + rem). simpl. repeat split; try lia; destruct r, s; simpl in *; intuition lia.
  - exists rem. simpl. repeat split; try lia; destruct r, s; simpl in *; intuition lia.
  - exists (P + rem). simpl. repeat split; try lia; destruct r, s; simpl in *; intuition lia.
Qed.

Lemma iter_shr_1_inv (p : positive) M P mrs :
  0 < P -> shr_inv M P mrs -> shr_inv M (2 ^ Zpos p * P) (SpecFloat.iter_pos shr_1 p mrs).
Proof.
  revert P mrs. induction p as [p IH|p IH|]; intros P mrs HP H; simpl SpecFloat.iter_pos.
  - replace (2 ^ Z.pos p~1 * P) with (2 ^ Zpos p * (2 ^ Zpos p * (2 * P))).
    + assert (0 < 2 ^ Zpos p) by (apply Z.pow_pos_nonneg; lia).
      apply IH; [nia|]. apply IH; [lia|]. now apply shr_1_inv.
    + rewrite (Pos2Z.inj_xI p), Z.pow_add_r, Z.pow_twice_r by lia.
      change (2 ^ 1) with 2. ring.
  - replace (2 ^ Z.pos p~0 * P) with (2 ^ Zpos p * (2 ^ Zpos p * P)).
    + assert (0 < 2 ^ Zpos p) by (apply Z.pow_pos_nonneg; lia).
      apply IH; [nia|]. now apply IH.
    + rewrite (Pos2Z.inj_xO p), Z.pow_twice_r. ring.
  - change (2 ^ 1) with 2. now apply shr_1_inv.
Qed.

Lemma shr_inv_start (M : Z) : 0 <= M -> shr_inv M 1 (Build_shr_record M false false).
Proof. intros H. exists 0. simpl. intuition lia. Qed.

Lemma iter_xO (d m : positive) : Zpos (Pos.iter xO m d) = Zpos m * 2 ^ Zpos d.
Proof.
  induction d as [|d IH] using Pos.peano_ind.
  - simpl. lia.
  - rewrite Pos.iter_succ, Pos2Z.inj_succ, Z.pow_succ_r by lia.
    rewrite (Pos2Z.inj_xO (Pos.iter xO m d)), IH. ring.
Qed.

Lemma digits2_pos_unique (m : positive) (d : Z) :
  2 ^ (d - 1) <= Zpos m < 2 ^ d -> Zpos (digits2_pos m) = d.
Proof.
  intros [Hl Hu]. pose proof (digits2_pos_bounds m) as [Hl' Hu'].
  assert (0 <= d).
  { destruct (Z.le_gt_cases 0 d); [assumption|].
    rewrite Z.pow_neg_r in Hu by lia. lia. }
  assert (d - 1 < Zpos (digits2_pos m)).
  { apply (Z.pow_lt_mono_r_iff 2); lia. }
  assert (Zpos (digits2_pos m) - 1 < d).
  { apply (Z.pow_lt_mono_r_iff 2); lia. }
  lia.
Qed.

Lemma fexp_eq (x : Z) : fexp Float64.prec Float64.emax x = Z.max (x - 53) (-1074).
Proof. reflexivity. Qed.

(** A mantissa that is already canonical passes through rounding. *)
Lemma binary_round_aux_canonical (s : bool) (m : positive) (e : Z) :
  canonical_mantissa Float64.prec Float64.emax m e = true ->
  binary_round_aux Float64.prec Float64.emax s (Zpos m) e loc_Exact
  = if e <=? 971 then S754_finite s m e else S754_infinity s.
Proof.
  unfold canonical_mantissa. intros H. apply Z.eqb_eq in H.
  unfold binary_round_aux, shr_fexp. unfold Zdigits2.
  rewrite H, Z.sub_diag. cbn [shr shr_record_of_loc shr_m loc_of_shr_record round_nearest_even].
  rewrite H, Z.sub_diag. cbn [shr shr_record_of_loc shr_m]. reflexivity.
Qed.

(** The second half of [binary_round_aux] on a canonical mantissa. *)
Lemma renormalize_canonical (s : bool) (m : positive) (e : Z) :
  canonical_mantissa Float64.prec Float64.emax m e = true ->
  (let '(mrs'', e'') := shr_fexp Float64.prec Float64.emax (Zpos m) e loc_Exact in
   match shr_m mrs'' with
   | 0 => S754_zero s
   | Z.pos m0 => if e'' <=? Float64.emax - Float64.prec then S754_finite s m0 e'' else S754_infinity s
   | Z.neg _ => S754_nan
   end)
  = if e <=? 971 then S754_finite s m e else S754_infinity s.
Proof.
  unfold canonical_mantissa. intros H. apply Z.eqb_eq in H.
  unfold shr_fexp, Zdigits2.
  rewrite H, Z.sub_diag. reflexivity.
Qed.

(** The second half of [binary_round_aux] when rounding carried into the
    54th bit. *)
Lemma renormalize_carry (s : bool) (e : Z) :
  -1074 <= e ->
  (let '(mrs'', e'') := shr_fexp Float64.prec Float64.emax (2 ^ 53) e loc_Exact in
   match shr_m mrs'' with
   | 0 => S754_zero s
   | Z.pos m0 => if e'' <=? Float64.emax - Float64.prec then S754_finite s m0 e'' else S754_infinity s
   | Z.neg _ => S754_nan
   end)
  = if e + 1 <=? 971 then S754_finite s (2 ^ 52) (e + 1) else S754_infinity s.
Proof.
  intros He. unfold shr_fexp.
  change (Zdigits2 (2 ^ 53)) with 54. rewrite fexp_eq.
  replace (Z.max (54 + e - 53) (-1074) - e) with 1 by lia.
  reflexivity.
Qed.

Lemma canonical_53 (m : positive) (e : Z) :
  -1074 <= e -> 2 ^ 52 <= Zpos m < 2 ^ 53 ->
  canonical_mantissa Float64.prec Float64.emax m e = true.
Proof.
  intros He Hm. unfold canonical_mantissa.
  rewrite (digits2_pos_unique m 53) by exact Hm.
  rewrite fexp_eq. apply Z.eqb_eq. lia.
Qed.

Lemma quotient_bounds (c P m1 rem : Z) :
  0 < P -> 0 <= rem < P -> c * P <= m1 * P + rem < 2 * c * P -> c <= m1 < 2 * c.
Proof. intros. nia. Qed.

Lemma scale_lower (c P S M : Z) :
  0 < S -> c * P <= M -> c * (P * S) <= M * S.
Proof. intros. nia. Qed.

Lemma rounded_error (c P M m1 m2 rem : Z) :
  0 < P -> 0 <= rem < P -> M = m1 * P + rem -> 0 <= c <= m1 ->
  (m2 = m1 /\ 2 * rem <= P) \/ (m2 = m1 + 1 /\ P <= 2 * rem) ->
  Z.abs (m2 * P - M) * (2 * c) <= M.
Proof.
  intros HP Hrem -> Hc [[-> H]|[-> H]].
  - replace (m1 * P - (m1 * P + rem)) with (- rem) by ring.
    rewrite Z.abs_opp, Z.abs_eq by lia. nia.
  - replace ((m1 + 1) * P - (m1 * P + rem)) with (P - rem) by ring.
    rewrite Z.abs_eq by lia. nia.
Qed.

Lemma scaled_error (a S c M : Z) :
  0 < S -> Z.abs a * c <= M -> Z.abs (a * S) * c <= M * S.
Proof. intros HS H. rewrite Z.abs_mul, (Z.abs_eq S) by lia. nia. Qed.

Lemma carry_lower (c P M m1 rem : Z) :
  0 < P -> 0 <= rem < P -> M = m1 * P + rem -> m1 + 1 = c -> P <= 2 * rem ->
  (2 * c - 1) * P <= 2 * M.
Proof. intros. nia. Qed.

Lemma scale_strict (a P S W M : Z) :
  0 < S -> P * S = W -> a * P <= 2 * M -> 2 * (M * S) < a * W -> False.
Proof. intros. nia. Qed.

Lemma binary_round_aux_shift (s : bool) (m : positive) (e : Z) (k : positive) :
  -1074 <= e ->
  Zpos (digits2_pos m) = 53 + Zpos k ->
  2 * (Zpos m * 2 ^ (e + 1074)) < (2 ^ 54 - 1) * 2 ^ 2045 ->
  exists m' e',
    binary_round_aux Float64.prec Float64.emax s (Zpos m) e loc_Exact = S754_finite s m' e' /\
    bounded Float64.prec Float64.emax m' e' = true /\
    Z.abs (Zpos m' * 2 ^ (e' + 1074) - Zpos m * 2 ^ (e + 1074)) * 2 ^ 53
      <= Zpos m * 2 ^ (e + 1074).
Proof.
  intros He Hd Hov.
  remember (2 ^ 2045) as W eqn:HW.
  pose proof (digits2_pos_bounds m) as Hm. rewrite Hd in Hm.
  unfold binary_round_aux. unfold shr_fexp at 1. unfold Zdigits2 at 1.
  rewrite Hd, fexp_eq.
  replace (Z.max (53 + Z.pos k + e - 53) (-1074) - e) with (Zpos k) by lia.
  cbn [shr shr_record_of_loc].
  pose proof (iter_shr_1_inv k (Zpos m) 1 _ ltac:(lia) (shr_inv_start (Zpos m) ltac:(lia))) as Hinv.
  rewrite Z.mul_1_r in Hinv.
  destruct (SpecFloat.iter_pos shr_1 k {| shr_m := Z.pos m; shr_r := false; shr_s := false |})
    as [m1 r1 s1].
  destruct Hinv as (rem & Hm1 & Hrem & HM & Hr & Hs). cbn [shr_m shr_r shr_s] in *.
  (* the powers of two become plain variables *)
  replace (53 + Z.pos k - 1) with (52 + Zpos k) in Hm by lia.
  rewrite !Z.pow_add_r in Hm by lia.
  assert (HS : 0 < 2 ^ (e + 1074)) by (apply Z.pow_pos_nonneg; lia).
  assert (HP : 0 < 2 ^ Zpos k) by (apply Z.pow_pos_nonneg; lia).
  assert (HPS : 2 ^ (e + Zpos k + 1074) = 2 ^ Zpos k * 2 ^ (e + 1074)).
  { rewrite <- Z.pow_add_r by lia. f_equal. lia. }
  change (2 ^ 52) with 4503599627370496 in Hm.
  change (2 ^ 53) with (2 * 4503599627370496) in Hm.
  change (2 ^ 54) with 18014398509481984 in Hov.
  assert (HE : e + Zpos k <= 971).
  { assert (H : 2 ^ (e + Zpos k + 1074) < 2 ^ (Z.succ 2045));
      [|apply Z.pow_lt_mono_r_iff in H; lia].
    rewrite HPS, Z.pow_succ_r, <- HW by lia.
    pose proof (scale_lower _ _ _ _ HS (proj1 Hm)). lia. }
  remember (2 ^ Zpos k) as P eqn:HeqP. remember (2 ^ (e + 1074)) as S eqn:HeqS.
  assert (Hm1' : 4503599627370496 <= m1 < 2 * 4503599627370496).
  { apply (quotient_bounds _ P m1 rem); lia. }
  set (m2 := round_nearest_even m1 (loc_of_shr_record {| shr_m := m1; shr_r := r1; shr_s := s1 |})).
  assert (Hm2 : (m2 = m1 /\ 2 * rem <= P) \/ (m2 = m1 + 1 /\ P <= 2 * rem)).
  { subst m2. destruct r1, s1; cbn [loc_of_shr_record round_nearest_even].
    - right. split; [reflexivity|]. now apply Hr.
    - assert (2 * rem = P).
      { destruct Hs as [Hs _]. specialize (Hs eq_refl).
        destruct Hr as [Hr _]. specialize (Hr eq_refl). lia. }
      destruct (Z.even m1); [left|right]; split; lia.
    - left. split; [reflexivity|]. destruct (Z.le_gt_cases P (2 * rem)) as [H|H]; [|lia].
      apply Hr in H. discriminate.
    - left. split; [reflexivity|]. destruct (Z.le_gt_cases P (2 * rem)) as [H|H]; [|lia].
      apply Hr in H. discriminate. }
  clearbody m2.
  pose proof (rounded_error 4503599627370496 P _ m1 m2 rem HP Hrem HM ltac:(lia) Hm2) as Herr.
  change (2 * 4503599627370496) with 9007199254740992 in *.
  destruct (Z.eq_dec m2 9007199254740992) as [Hc|Hc].
  - (* rounding carried into the 54th bit *)
    subst m2. change 9007199254740992 with (2 ^ 53) at 1.
    rewrite renormalize_carry by lia.
    assert (HE' : e + Zpos k + 1 <= 971).
    { destruct (Z.eq_dec (e + Zpos k) 971) as [H971|]; [|lia]. exfalso.
      rewrite H971 in HPS. replace (971 + 1074) with 2045 in HPS by lia.
      rewrite <- HW in HPS.
      destruct Hm2 as [[H _]|[H Hh]]; [lia|].
      pose proof (carry_lower 9007199254740992 P _ m1 rem HP Hrem HM ltac:(lia) Hh) as Hlow.
      apply (scale_strict _ P S W (Zpos m) HS (eq_sym HPS) Hlow). lia. }
    destruct (Z.leb_spec (e + Zpos k + 1) 971); [|lia].
    exists (2 ^ 52)%positive, (e + Zpos k + 1). split; [reflexivity|]. split.
    + unfold bounded. rewrite canonical_53 by (simpl; lia).
      apply Z.leb_le. unfold Float64.emax, Float64.prec. lia.
    + replace (e + Zpos k + 1 + 1074) with (1 + (e + Zpos k + 1074)) by lia.
      rewrite Z.pow_add_r, HPS by lia.
      change (Z.pos (2 ^ 52)) with 4503599627370496. change (2 ^ 1) with 2.
      replace (4503599627370496 * (2 * (P * S)) - Z.pos m * S)
        with ((9007199254740992 * P - Z.pos m) * S) by ring.
      change (2 ^ 53) with 9007199254740992.
      now apply scaled_error.
  - destruct m2 as [|p2|p2]; try lia.
    assert (Hp2 : 2 ^ 52 <= Zpos p2 < 2 ^ 53).
    { change (2 ^ 52) with 4503599627370496. change (2 ^ 53) with 9007199254740992. lia. }
    rewrite renormalize_canonical by (apply canonical_53; lia).
    destruct (Z.leb_spec (e + Zpos k) 971); [|lia].
    exists p2, (e + Zpos k). split; [reflexivity|]. split.
    + unfold bounded. rewrite canonical_53 by lia.
      apply Z.leb_le. unfold Float64.emax, Float64.prec. lia.
    + rewrite HPS.
      replace (Z.pos p2 * (P * S) - Z.pos m * S) with ((Zpos p2 * P - Z.pos m) * S) by ring.
      change (2 ^ 53) with 9007199254740992.
      now apply scaled_error.
Qed.

Lemma shl_align_spec (m : positive) (e e' : Z) :
  e' <= e ->
  Zpos (fst (shl_align m e e')) = Zpos m * 2 ^ (e - e') /\
  snd (shl_align m e e') = e'.
Proof.
  intros H. unfold shl_align.
  destruct (e' - e) as [|d|d] eqn:Hd; try lia; cbn [fst snd].
  - replace (e - e') with 0 by lia. split; lia.
  - rewrite iter_xO. replace (e - e') with (Zpos d) by lia. split; lia.
Qed.

Lemma binary_round_correct (s : bool) (m : positive) (e : Z) :
  -1074 <= e ->
  2 * (Zpos m * 2 ^ (e + 1074)) < (2 ^ 54 - 1) * 2 ^ 2045 ->
  exists m' e',
    binary_round Float64.prec Float64.emax s m e = S754_finite s m' e' /\
    bounded Float64.prec Float64.emax m' e' = true /\
    Z.abs (Zpos m' * 2 ^ (e' + 1074) - Zpos m * 2 ^ (e + 1074)) * 2 ^ 53
      <= Zpos m * 2 ^ (e + 1074).
Proof.
  intros He Hov. unfold binary_round. rewrite fexp_eq.
  pose proof (digits2_pos_bounds m) as Hm.
  remember (Zpos (digits2_pos m)) as d eqn:Hd.
  destruct (Z.le_gt_cases d 53) as [Hd53|Hd53].
  - (* the mantissa fits: the result is exact *)
    set (f := Z.max (d + e - 53) (-1074)).
    assert (Hf : f <= e) by lia.
    destruct (shl_align_spec m e f Hf) as [Hmz Hez].
    destruct (shl_align m e f) as [mz ez]. cbn [fst snd] in Hmz, Hez. subst ez.
    assert (Hcan : canonical_mantissa Float64.prec Float64.emax mz f = true).
    { unfold canonical_mantissa.
      rewrite (digits2_pos_unique mz (d + (e - f))).
      - rewrite fexp_eq. apply Z.eqb_eq. lia.
      - rewrite Hmz. replace (d + (e - f) - 1) with ((d - 1) + (e - f)) by lia.
        rewrite !Z.pow_add_r by lia.
        assert (0 < 2 ^ (e - f)) by (apply Z.pow_pos_nonneg; lia). nia. }
    assert (Hf971 : f <= 971).
    { assert (H : 2 ^ (d + (e + 1074)) < 2 ^ 2099); [|apply Z.pow_lt_mono_r_iff in H; lia].
      replace (d + (e + 1074)) with (1 + ((d - 1) + (e + 1074))) by lia.
      rewrite !Z.pow_add_r by lia. change (2 ^ 1) with 2.
      change (2 ^ 2099) with (2 ^ 54 * 2 ^ 2045).
      assert (0 < 2 ^ (e + 1074)) by (apply Z.pow_pos_nonneg; lia).
      assert (0 < 2 ^ 2045) by (apply Z.pow_pos_nonneg; lia).
      generalize dependent (2 ^ (e + 1074)). generalize dependent (2 ^ 2045).
      generalize dependent (2 ^ (d - 1)). change (2 ^ 54) with 18014398509481984.
      intros. nia. }
    rewrite binary_round_aux_canonical by exact Hcan.
    destruct (Z.leb_spec f 971); [|lia].
    exists mz, f. split; [reflexivity|]. split.
    + unfold bounded. rewrite Hcan. apply Z.leb_le. unfold Float64.emax, Float64.prec. lia.
    + rewrite Hmz. replace (e + 1074) with ((e - f) + (f + 1074)) by lia.
      rewrite (Z.pow_add_r 2 (e - f) (f + 1074)) by lia.
      replace (Z.pos m * 2 ^ (e - f) * 2 ^ (f + 1074) - Z.pos m * (2 ^ (e - f) * 2 ^ (f + 1074)))
        with 0 by ring.
      change (Z.abs 0) with 0. rewrite Z.mul_0_l.
      apply Z.mul_nonneg_nonneg; [lia|].
      apply Z.mul_nonneg_nonneg; apply Z.pow_nonneg; lia.
  - (* the mantissa is too long: it is shifted right and rounded *)
    assert (Hk : d = 53 + Zpos (Z.to_pos (d - 53))) by (rewrite Z2Pos.id; lia).
    replace (Z.max (d + e - 53) (-1074)) with (e + Zpos (Z.to_pos (d - 53))) by lia.
    unfold shl_align.
    replace (e + Z.pos (Z.to_pos (d - 53)) - e) with (Zpos (Z.to_pos (d - 53))) by lia.
    cbv beta iota.
    apply (binary_round_aux_shift s m e (Z.to_pos (d - 53)));
      [exact He | rewrite <- Hd; exact Hk | exact Hov].
Qed.

Lemma bounded_inv (m : positive) (e : Z) :
  bounded Float64.prec Float64.emax m e = true -> -1074 <= e <= 971 /\ Zpos m < 2 ^ 53.
Proof.
  unfold bounded, canonical_mantissa. intros H.
  apply andb_true_iff in H as [Hc He].
  apply Z.eqb_eq in Hc. apply Z.leb_le in He. rewrite fexp_eq in Hc.
  unfold Float64.emax, Float64.prec in He.
  pose proof (digits2_pos_bounds m) as [_ Hm].
  split; [lia|].
  eapply Z.lt_le_trans; [exact Hm|]. apply Z.pow_le_mono_r; lia.
Qed.

Lemma normalize_correct (N e : Z) :
  -1074 <= e ->
  2 * Z.abs (N * 2 ^ (e + 1074)) < Float64.huge ->
  let z := binary_normalize Float64.prec Float64.emax N e false in
  Float64.is_float z = true /\ Float64.is_finite z = true /\
  Z.abs (Float64.scaled z - N * 2 ^ (e + 1074)) * 2 ^ 53 <= Z.abs (N * 2 ^ (e + 1074)).
Proof.
  intros He Hov. unfold Float64.huge in Hov.
  assert (HS : 0 < 2 ^ (e + 1074)) by (apply Z.pow_pos_nonneg; lia).
  destruct N as [|p|p]; cbn [binary_normalize]; cbv zeta.
  - simpl. lia.
  - rewrite (Z.abs_eq (Z.pos p * _)) in * by lia.
    destruct (binary_round_correct false p e He Hov) as (m' & e' & -> & Hb & Herr).
    split; [exact Hb|]. split; [reflexivity|]. exact Herr.
  - replace (Z.neg p * 2 ^ (e + 1074)) with (- (Z.pos p * 2 ^ (e + 1074))) in * by lia.
    rewrite Z.abs_opp, (Z.abs_eq (Z.pos p * _)) in * by lia.
    destruct (binary_round_correct true p e He Hov) as (m' & e' & -> & Hb & Herr).
    split; [exact Hb|]. split; [reflexivity|].
    cbn [Float64.scaled cond_Zopp].
    replace (- (Z.pos m' * 2 ^ (e' + 1074)) - - (Z.pos p * 2 ^ (e + 1074)))
      with (- (Z.pos m' * 2 ^ (e' + 1074) - Z.pos p * 2 ^ (e + 1074))) by ring.
    rewrite Z.abs_opp. exact Herr.
Qed.

Lemma aligned_scaled (s : bool) (m : positive) (e e' : Z) :
  -1074 <= e' <= e ->
  cond_Zopp s (Zpos (fst (shl_align m e e'))) * 2 ^ (e' + 1074)
  = Float64.scaled (S754_finite s m e).
Proof.
  intros H. destruct (shl_align_spec m e e' ltac:(lia)) as [-> _].
  cbn [Float64.scaled]. replace (e + 1074) with ((e - e') + (e' + 1074)) by lia.
  rewrite (Z.pow_add_r 2 (e - e') (e' + 1074)) by lia.
  destruct s; cbn [cond_Zopp]; ring.
Qed.

Lemma add_correct (x y : spec_float) :
  Float64.is_float x = true -> Float64.is_finite x = true ->
  Float64.is_float y = true -> Float64.is_finite y = true ->
  2 * Z.abs (Float64.scaled x + Float64.scaled y) < Float64.huge ->
  Float64.is_float (Float64.add x y) = true /\ Float64.is_finite (Float64.add x y) = true /\
  Z.abs (Float64.scaled (Float64.add x y) - (Float64.scaled x + Float64.scaled y)) * 2 ^ 53
    <= Z.abs (Float64.scaled x + Float64.scaled y).
Proof.
  intros Hx Hfx Hy Hfy Hov.
  destruct x as [sx|sx| |sx mx ex]; try discriminate;
    destruct y as [sy|sy| |sy my ey]; try discriminate.
  - destruct sx, sy; simpl; lia.
  - unfold Float64.add. cbn [SFadd]. rewrite Z.add_0_l, Z.sub_diag. 
    split; [exact Hy|]. split; [reflexivity|]. simpl. lia.
  - unfold Float64.add. cbn [SFadd]. rewrite Z.add_0_r, Z.sub_diag.
    split; [exact Hx|]. split; [reflexivity|]. simpl. lia.
  - apply bounded_inv in Hx as [Hex _]. apply bounded_inv in Hy as [Hey _].
    unfold Float64.add. cbn [SFadd]. cbv zeta.
    rewrite <- (aligned_scaled sx mx ex (Z.min ex ey)) in * by lia.
    rewrite <- (aligned_scaled sy my ey (Z.min ex ey)) in * by lia.
    rewrite <- Z.mul_add_distr_r in *.
    apply normalize_correct; [lia | exact Hov].
Qed.

Lemma SFsub_SFadd (x y : spec_float) :
  SFsub Float64.prec Float64.emax x y = SFadd Float64.prec Float64.emax x (SFopp y).
Proof.
  destruct x as [sx|sx| |sx mx ex], y as [sy|sy| |sy my ey];
    try destruct sx; try destruct sy; try reflexivity.
Qed.

Lemma sub_correct (x y : spec_float) :
  Float64.is_float x = true -> Float64.is_finite x = true ->
  Float64.is_float y = true -> Float64.is_finite y = true ->
  2 * Z.abs (Float64.scaled x - Float64.scaled y) < Float64.huge ->
  Float64.is_float (Float64.sub x y) = true /\ Float64.is_finite (Float64.sub x y) = true /\
  Z.abs (Float64.scaled (Float64.sub x y) - (Float64.scaled x - Float64.scaled y)) * 2 ^ 53
    <= Z.abs (Float64.scaled x - Float64.scaled y).
Proof.
  intros Hx Hfx Hy Hfy Hov. unfold Float64.sub. rewrite SFsub_SFadd.
  assert (Hs : Float64.scaled (SFopp y) = - Float64.scaled y).
  { destruct y as [sy|sy| |sy my ey]; try reflexivity. destruct sy; simpl; lia. }
  replace (Float64.scaled x - Float64.scaled y) with (Float64.scaled x + Float64.scaled (SFopp y)) in * by lia.
  apply add_correct; try assumption; destruct y; assumption.
Qed.

End Rounding.

(* ===================================================================== *)
(** * Facts about the table                                               *)
(* ===================================================================== *)

Section TableFacts.

Lemma dict_display_list_to_map {V} (items : list (string * V)) :
  dict_display items = list_to_map (reverse items).
Proof.
  unfold dict_display.
  rewrite <- (reverse_involutive items) at 1.
  generalize (reverse items) as l. clear items.
  induction l as [|[k v] l IH]; [reflexivity|].
  rewrite reverse_cons, foldl_app. simpl. now rewrite IH.
Qed.

Lemma dict_display_lookup {V} (items : list (string * V)) k v :
  NoDup items.*1 ->
  dict_display items !! k = Some v <-> (k, v) ∈ items.
Proof.
  intros Hnd. rewrite dict_display_list_to_map.
  rewrite <- elem_of_list_to_map.
  - now rewrite elem_of_reverse.
  - now rewrite fmap_reverse, reverse_Permutation.
Qed.

Lemma REFERENCE_POTENTIALS_keys_NoDup : NoDup REFERENCE_POTENTIALS_keys.
Proof. apply (bool_decide_unpack _). vm_compute. exact I. Qed.

Lemma REFERENCE_POTENTIALS_lookup k v :
  REFERENCE_POTENTIALS !! k = Some v <-> (k, v) ∈ REFERENCE_POTENTIALS_items.
Proof. apply dict_display_lookup, REFERENCE_POTENTIALS_keys_NoDup. Qed.

Lemma REFERENCE_POTENTIALS_is_key k :
  is_Some (REFERENCE_POTENTIALS !! k) <-> k ∈ REFERENCE_POTENTIALS_keys.
Proof.
  unfold REFERENCE_POTENTIALS_keys. rewrite list_elem_of_fmap. split.
  - intros [v Hv]. exists (k, v). split; [reflexivity|].
    now apply REFERENCE_POTENTIALS_lookup.
  - intros [[k' v] [-> Hin]]. exists v. now apply REFERENCE_POTENTIALS_lookup.
Qed.

(** Both subscripts succeed on keys of the table. *)
Lemma convert_potential_keys (p : float) (from_ref to_ref : string) (a b : float) :
  REFERENCE_POTENTIALS !! from_ref = Some a ->
  REFERENCE_POTENTIALS !! to_ref = Some b ->
  convert_potential p from_ref to_ref = Return (Float64.sub (Float64.add p a) b).
Proof.
  intros Ha Hb. unfold convert_potential, dict_getitem.
  now rewrite Ha, Hb.
Qed.

End TableFacts.

(* ===================================================================== *)
(** * Accuracy of shifting by an offset                                   *)
(* ===================================================================== *)

Section Accuracy.

Lemma REFERENCE_POTENTIALS_offsets (R : string) (a : float) :
  REFERENCE_POTENTIALS !! R = Some a -> Float64.is_offset a = true.
Proof.
  intros H. apply REFERENCE_POTENTIALS_lookup in H.
  assert (Hall : Forall (fun kv : string * float => Float64.is_offset kv.2 = true)
                   REFERENCE_POTENTIALS_items).
  { apply (bool_decide_unpack _). vm_compute. exact I. }
  rewrite Forall_forall in Hall. exact (Hall _ H).
Qed.

Lemma is_offset_inv (a : float) :
  Float64.is_offset a = true ->
  Float64.is_float a = true /\ Float64.is_finite a = true /\
  0 <= Float64.scaled a <= Float64.one.
Proof.
  unfold Float64.is_offset. intros H.
  apply andb_true_iff in H as [H H4]. apply andb_true_iff in H as [H H3].
  apply andb_true_iff in H as [H1 H2].
  apply Z.leb_le in H3, H4. auto.
Qed.

Lemma scaled_le_max (x : float) :
  Float64.is_float x = true ->
  Z.abs (Float64.scaled x) <= (2 ^ 53 - 1) * 2 ^ 2045.
Proof.
  destruct x as [s|s| |s m e]; intros Hx; cbn [Float64.scaled];
    try (change (Z.abs 0) with 0; apply Z.mul_nonneg_nonneg; [lia|apply Z.pow_nonneg; lia]).
  apply bounded_inv in Hx as [He Hm].
  assert (Hp : 2 ^ (e + 1074) <= 2 ^ 2045) by (apply Z.pow_le_mono_r; lia).
  assert (HS : 0 < 2 ^ (e + 1074)) by (apply Z.pow_pos_nonneg; lia).
  replace (Z.abs (cond_Zopp s (Z.pos m * 2 ^ (e + 1074)))) with (Z.pos m * 2 ^ (e + 1074)).
  - apply Z.mul_le_mono_nonneg; lia.
  - destruct s; cbn [cond_Zopp]; [rewrite Z.abs_opp|]; rewrite Z.abs_eq; lia.
Qed.

Lemma two_below_overflow : 2 * Float64.one < 2 ^ 2045.
Proof.
  unfold Float64.one. rewrite <- Z.pow_succ_r by lia. apply Z.pow_lt_mono_r; lia.
Qed.

Lemma no_overflow (T A : Z) :
  Z.abs T <= (2 ^ 53 - 1) * 2 ^ 2045 ->
  0 <= A <= Float64.one ->
  2 * Z.abs (T + A) < Float64.huge /\ 2 * Z.abs (T - A) < Float64.huge.
Proof.
  pose proof two_below_overflow as H. unfold Float64.huge.
  change (2 ^ 53) with 9007199254740992. change (2 ^ 54) with 18014398509481984.
  generalize dependent (2 ^ 2045). generalize dependent Float64.one.
  intros. lia.
Qed.

(** Adding an offset of the table to a finite float gives a finite float,
    the sum rounded with relative error at most [2^-53]. *)
Lemma add_offset (t a : float) :
  Float64.is_float t = true -> Float64.is_finite t = true ->
  Float64.is_offset a = true ->
  Float64.is_float (Float64.add t a) = true /\
  Float64.is_finite (Float64.add t a) = true /\
  Z.abs (Float64.scaled (Float64.add t a) - (Float64.scaled t + Float64.scaled a)) * 2 ^ 53
    <= Z.abs (Float64.scaled t + Float64.scaled a).
Proof.
  intros Ht Hft Ha. apply is_offset_inv in Ha as (Ha & Hfa & HA).
  apply add_correct; try assumption.
  apply no_overflow; [now apply scaled_le_max | exact HA].
Qed.

Lemma sub_offset (t a : float) :
  Float64.is_float t = true -> Float64.is_finite t = true ->
  Float64.is_offset a = true ->
  Float64.is_float (Float64.sub t a) = true /\
  Float64.is_finite (Float64.sub t a) = true /\
  Z.abs (Float64.scaled (Float64.sub t a) - (Float64.scaled t - Float64.scaled a)) * 2 ^ 53
    <= Z.abs (Float64.scaled t - Float64.scaled a).
Proof.
  intros Ht Hft Ha. apply is_offset_inv in Ha as (Ha & Hfa & HA).
  apply sub_correct; try assumption.
  apply no_overflow; [now apply scaled_le_max | exact HA].
Qed.

(** The error of two and of four shifts, in the units of [scaled]. *)
Lemma identity_error (ONE V A T1 T2 : Z) :
  0 <= A <= ONE ->
  Z.abs (T1 - (V + A)) * 2 ^ 53 <= Z.abs (V + A) ->
  Z.abs (T2 - (T1 - A)) * 2 ^ 53 <= Z.abs (T1 - A) ->
  Z.abs (T2 - V) * 2 ^ 51 <= Z.max (Z.abs V) ONE.
Proof.
  change (2 ^ 53) with 9007199254740992. change (2 ^ 51) with 2251799813685248.
  intros. lia.
Qed.

Lemma round_trip_error (ONE V A B T1 T2 T3 T4 : Z) :
  0 <= A <= ONE -> 0 <= B <= ONE ->
  Z.abs (T1 - (V + A)) * 2 ^ 53 <= Z.abs (V + A) ->
  Z.abs (T2 - (T1 - B)) * 2 ^ 53 <= Z.abs (T1 - B) ->
  Z.abs (T3 - (T2 + B)) * 2 ^ 53 <= Z.abs (T2 + B) ->
  Z.abs (T4 - (T3 - A)) * 2 ^ 53 <= Z.abs (T3 - A) ->
  Z.abs (T4 - V) * 2 ^ 49 <= Z.max (Z.abs V) ONE.
Proof.
  change (2 ^ 53) with 9007199254740992. change (2 ^ 49) with 562949953421312.
  intros. lia.
Qed.

(** Infinities and NaN stay what they are when an offset is added or
    subtracted. *)
Lemma shift_not_finite (p a b : float) :
  Float64.is_finite p = false ->
  Float64.is_offset a = true -> Float64.is_offset b = true ->
  Float64.sub (Float64.add p a) b = p.
Proof.
  intros Hp Ha Hb.
  apply is_offset_inv in Ha as (_ & Hfa & _). apply is_offset_inv in Hb as (_ & Hfb & _).
  destruct p as [s|s| |s m e]; try discriminate;
    destruct a as [sa|sa| |sa ma ea]; try discriminate;
    destruct b as [sb|sb| |sb mb eb]; try discriminate;
    try destruct s; reflexivity.
Qed.

(** The error of one conversion: two shifts. *)
Lemma conversion_error (ONE V A B T1 T2 : Z) :
  0 <= A <= ONE -> 0 <= B <= ONE ->
  Z.abs (T1 - (V + A)) * 2 ^ 53 <= Z.abs (V + A) ->
  Z.abs (T2 - (T1 - B)) * 2 ^ 53 <= Z.abs (T1 - B) ->
  Z.abs (T2 - (V + A - B)) * 2 ^ 50 <= Z.max (Z.abs V) ONE.
Proof.
  change (2 ^ 53) with 9007199254740992. change (2 ^ 50) with 1125899906842624.
  intros. lia.
Qed.

End Accuracy.

(* ===================================================================== *)
(** * Facts about the script                                              *)
(* ===================================================================== *)

Section ScriptFacts.

Arguments convert_potential : simpl never.

Ltac run_app :=
  unfold app, when, st_button, button_eqb, experimental_rerun, raise, lift,
    set_from_ref, set_to_ref, set_conversion_history, del_from_ref, del_to_ref,
    append_conversion_history, get_session, put_session, emit,
    mbind, mret, script_bind, script_ret, bind, ret;
  cbn.

(** A run started by the Convert button whose conversion succeeds. *)
Lemma app_convert_ok w now ss c :
  convert_potential (potential_value w) (applied_from_ref w ss) (applied_to_ref w ss)
    = Return c ->
  let r := conversion_record (potential_value w) (applied_from_ref w ss)
             (applied_to_ref w ss) c now in
  app w (Some Convert) now {| session := ss; page := [] |}
  = (Return tt,
     {| session := {| ss_from_ref := None; ss_to_ref := None;
                      ss_conversion_history := Some (history ss ++ [r]) |};
        page := [ Success (success_body (potential_value w) (applied_from_ref w ss)
                             c (applied_to_ref w ss));
                  Dataframe (history ss ++ [r]) ] |}).
Proof.
  unfold applied_from_ref, applied_to_ref, history.
  destruct ss as [[f|] [t|] [h|]]; cbn; intros Hc; run_app; rewrite Hc; cbn;
    try (destruct h; reflexivity); reflexivity.
Qed.

(** A run started by the Convert button whose conversion fails. *)
Lemma app_convert_raise w now ss e :
  convert_potential (potential_value w) (applied_from_ref w ss) (applied_to_ref w ss)
    = Raise e ->
  app w (Some Convert) now {| session := ss; page := [] |}
  = (Raise e, {| session := settled ss; page := [] |}).
Proof.
  unfold applied_from_ref, applied_to_ref, settled.
  destruct ss as [[f|] [t|] h]; cbn; intros Hc; run_app; rewrite Hc; reflexivity.
Qed.

(** A run that no button started leaves the history alone and returns. *)
Lemma app_idle w now ss :
  exists pg,
    app w None now {| session := ss; page := [] |}
    = (Return tt, {| session := settled ss; page := pg |}).
Proof.
  unfold settled.
  destruct ss as [[f|] [t|] [[|r h]|]]; run_app; eexists; reflexivity.
Qed.

(** A run started by the Swap button stores the exchanged names and asks
    for a rerun. *)
Lemma app_swap w now ss :
  app w (Some SwapReferences) now {| session := ss; page := [] |}
  = (Raise RerunException,
     {| session := {| ss_from_ref := Some (to_ref w); ss_to_ref := Some (from_ref w);
                      ss_conversion_history := ss_conversion_history ss |};
        page := [] |}).
Proof. destruct ss as [f t h]. run_app. reflexivity. Qed.

(** A run started by the Clear button: with entries to show it empties
    the list and asks for a rerun; with none the button is not on the
    page, and the run is an idle one. *)
Lemma app_clear w now ss :
  exists r pg h,
    app w (Some ClearHistory) now {| session := ss; page := [] |}
    = (r, {| session := {| ss_from_ref := None; ss_to_ref := None;
                           ss_conversion_history := h |};
             page := pg |})
    /\ default [] h = []
    /\ (r = Return tt \/ r = Raise RerunException).
Proof.
  destruct ss as [[f|] [t|] [[|r h]|]]; run_app;
    do 3 eexists; (split; [reflexivity|]); split; cbn; auto.
Qed.

Lemma run_script_idle fuel w now ss :
  exists pg,
    run_script (S fuel) w None now ss
    = Some (Return tt, {| session := settled ss; page := pg |}).
Proof.
  destruct (app_idle w now ss) as [pg H]. exists pg. cbn [run_script]. now rewrite H.
Qed.

(** The run that the Convert button starts, when the conversion returns. *)
Lemma run_script_convert fuel w now ss c :
  convert_potential (potential_value w) (applied_from_ref w ss) (applied_to_ref w ss)
    = Return c ->
  exists st,
    run_script (S fuel) w (Some Convert) now ss = Some (Return tt, st) /\
    history (session st)
      = history ss ++ [conversion_record (potential_value w) (applied_from_ref w ss)
                         (applied_to_ref w ss) c now] /\
    page st
      = [ Success (success_body (potential_value w) (applied_from_ref w ss) c
                     (applied_to_ref w ss));
          Dataframe (history (session st)) ].
Proof.
  intros Hc. pose proof (app_convert_ok w now ss c Hc) as Happ. cbv zeta in Happ.
  eexists. cbn [run_script]. rewrite Happ. repeat split; reflexivity.
Qed.

End ScriptFacts.

(* ===================================================================== *)
(** * The converter: what it computes                                     *)
(* ===================================================================== *)

(** C1.  For names that are keys of the table, [convert_potential]
    returns [(p + offset(from_ref)) - offset(to_ref)] in float
    arithmetic: it first adds the offset of the source electrode, then
    subtracts the offset of the target electrode from that sum.  For a
    finite potential both operations stay finite, the sum is the exact
    [p + offset(from_ref)] and the result the exact difference of the sum
    and [offset(to_ref)], each rounded with relative error at most
    [2^-53], so the result is within [2^-50 * max(|p|, 1)] of the exact
    [p + offset(from_ref) - offset(to_ref)]; an infinite or NaN potential
    is returned as it is. *)
Theorem convert_potential_spec (p : float) (from_ref to_ref : string) (a b : float) :
  REFERENCE_POTENTIALS !! from_ref = Some a ->
  REFERENCE_POTENTIALS !! to_ref = Some b ->
  convert_potential p from_ref to_ref = Return (Float64.sub (Float64.add p a) b) /\
  (Float64.is_float p = true -> Float64.is_finite p = true ->
   Float64.is_finite (Float64.add p a) = true /\
   Float64.is_finite (Float64.sub (Float64.add p a) b) = true /\
   Z.abs (Float64.scaled (Float64.add p a) - (Float64.scaled p + Float64.scaled a)) * 2 ^ 53
     <= Z.abs (Float64.scaled p + Float64.scaled a) /\
   Z.abs (Float64.scaled (Float64.sub (Float64.add p a) b)
          - (Float64.scaled (Float64.add p a) - Float64.scaled b)) * 2 ^ 53
     <= Z.abs (Float64.scaled (Float64.add p a) - Float64.scaled b) /\
   Z.abs (Float64.scaled (Float64.sub (Float64.add p a) b)
          - (Float64.scaled p + Float64.scaled a - Float64.scaled b)) * 2 ^ 50
     <= Z.max (Z.abs (Float64.scaled p)) Float64.one) /\
  (Float64.is_finite p = false -> Float64.sub (Float64.add p a) b = p).
Proof.
  intros Ha Hb. split; [|split].
  - unfold convert_potential, dict_getitem.
    rewrite Ha. cbn. rewrite Hb. reflexivity.
  - intros Hp Hfin.
    apply REFERENCE_POTENTIALS_offsets in Ha, Hb.
    destruct (add_offset p a Hp Hfin Ha) as (H1 & Hf1 & E1).
    destruct (sub_offset _ b H1 Hf1 Hb) as (H2 & Hf2 & E2).
    apply is_offset_inv in Ha as (_ & _ & HA). apply is_offset_inv in Hb as (_ & _ & HB).
    split; [exact Hf1|]. split; [exact Hf2|]. split; [exact E1|]. split; [exact E2|].
    exact (conversion_error _ _ _ _ _ _ HA HB E1 E2).
  - intros Hp. apply REFERENCE_POTENTIALS_offsets in Ha, Hb.
    now apply shift_not_finite.
Qed.

Lemma convert_potential_spec_witness :
  REFERENCE_POTENTIALS !! "Calomel (1M KCl)" = Some (Float64.mk 5044031582654956 (-54)) /\
  REFERENCE_POTENTIALS !! "Hg/HgO (20% KOH)" = Some (Float64.mk 6845471433603154 (-56)) /\
  Float64.is_float potential_0_350 = true /\
  Float64.is_finite potential_0_350 = true /\
  convert_potential potential_0_350 "Calomel (1M KCl)" "Hg/HgO (20% KOH)"
  = Return (Float64.sub
              (Float64.add potential_0_350 (Float64.mk 5044031582654956 (-54)))
              (Float64.mk 6845471433603154 (-56))) /\
  Z.abs (Float64.scaled
           (Float64.sub
              (Float64.add potential_0_350 (Float64.mk 5044031582654956 (-54)))
              (Float64.mk 6845471433603154 (-56)))
         - (Float64.scaled potential_0_350
            + Float64.scaled (Float64.mk 5044031582654956 (-54))
            - Float64.scaled (Float64.mk 6845471433603154 (-56)))) * 2 ^ 50
    <= Z.max (Z.abs (Float64.scaled potential_0_350)) Float64.one.
Proof.
  assert (H1 : REFERENCE_POTENTIALS !! "Calomel (1M KCl)"
               = Some (Float64.mk 5044031582654956 (-54))) by (vm_compute; reflexivity).
  assert (H2 : REFERENCE_POTENTIALS !! "Hg/HgO (20% KOH)"
               = Some (Float64.mk 6845471433603154 (-56))) by (vm_compute; reflexivity).
  split; [exact H1|]. split; [exact H2|]. split; [reflexivity|]. split; [reflexivity|].
  destruct (convert_potential_spec potential_0_350 "Calomel (1M KCl)" "Hg/HgO (20% KOH)"
              _ _ H1 H2) as (Hc & Hacc & _).
  split; [exact Hc|].
  exact (proj2 (proj2 (proj2 (proj2 (Hacc eq_refl eq_refl))))).
Defined.

(** C2.  The table has sixteen entries, one per name; every entry is one
    of the sixteen items of the source and its offset is the float nearest
    to the listed number of thousandths of a volt; the hydrogen electrodes
    SHE and NHE have offset [0.0]. *)
Theorem REFERENCE_POTENTIALS_table :
  size REFERENCE_POTENTIALS = 16%nat /\
  length REFERENCE_POTENTIALS_items = 16%nat /\
  NoDup REFERENCE_POTENTIALS_keys /\
  (forall name x,
      REFERENCE_POTENTIALS !! name = Some x <-> (name, x) ∈ REFERENCE_POTENTIALS_items) /\
  Forall2 (fun kv kn => kv.1 = kn.1 /\ Float64.nearest_thousandth kn.2 kv.2 = true)
    REFERENCE_POTENTIALS_items REFERENCE_POTENTIALS_millivolts /\
  REFERENCE_POTENTIALS !! "SHE (Standard Hydrogen)" = Some Float64.zero /\
  REFERENCE_POTENTIALS !! "NHE (Normal Hydrogen)" = Some Float64.zero.
Proof.
  split; [vm_compute; reflexivity|].
  split; [reflexivity|].
  split; [apply REFERENCE_POTENTIALS_keys_NoDup|].
  split; [apply REFERENCE_POTENTIALS_lookup|].
  split; [|split; vm_compute; reflexivity].
  unfold REFERENCE_POTENTIALS_items, REFERENCE_POTENTIALS_millivolts.
  repeat (constructor; [split; [reflexivity|vm_compute; reflexivity]|]).
  constructor.
Qed.

(** C10.  For names that are keys of the table the converter returns a
    float, whatever float the potential is (infinite and NaN included):
    neither subscript raises, and the result is again a binary64 number. *)
Theorem convert_potential_returns (p : float) (from_ref to_ref : string) :
  from_ref ∈ REFERENCE_POTENTIALS_keys ->
  to_ref ∈ REFERENCE_POTENTIALS_keys ->
  Float64.is_float p = true ->
  exists r : float,
    convert_potential p from_ref to_ref = Return r /\ Float64.is_float r = true.
Proof.
  intros Hf Ht Hp.
  apply REFERENCE_POTENTIALS_is_key in Hf as [a Ha].
  apply REFERENCE_POTENTIALS_is_key in Ht as [b Hb].
  eexists. split; [exact (convert_potential_keys p _ _ a b Ha Hb)|].
  apply REFERENCE_POTENTIALS_offsets in Ha, Hb.
  destruct (Float64.is_finite p) eqn:Hfin.
  - destruct (add_offset p a Hp Hfin Ha) as (H1 & H2 & _).
    now destruct (sub_offset _ b H1 H2 Hb) as (H3 & _).
  - now rewrite shift_not_finite.
Qed.

Lemma convert_potential_returns_witness :
  ("Calomel (0.1M KCl)" ∈ REFERENCE_POTENTIALS_keys) /\
  ("Ag/AgCl (3M KCl)" ∈ REFERENCE_POTENTIALS_keys) /\
  Float64.is_float S754_nan = true /\
  exists r : float,
    convert_potential S754_nan "Calomel (0.1M KCl)" "Ag/AgCl (3M KCl)" = Return r /\
    Float64.is_float r = true.
Proof.
  assert (H1 : "Calomel (0.1M KCl)" ∈ REFERENCE_POTENTIALS_keys)
    by (apply (bool_decide_unpack _); vm_compute; exact I).
  assert (H2 : "Ag/AgCl (3M KCl)" ∈ REFERENCE_POTENTIALS_keys)
    by (apply (bool_decide_unpack _); vm_compute; exact I).
  split; [exact H1|]. split; [exact H2|]. split; [reflexivity|].
  exact (convert_potential_returns S754_nan _ _ H1 H2 eq_refl).
Defined.

(* ===================================================================== *)
(** * The converter: identities                                           *)
(* ===================================================================== *)

(** C3, as stated, fails: the default potential [0.350] converted from
    Ag/AgCl (saturated KCl) to the same electrode comes back as
    [0.3499999999999999], the float below [0.350]. *)
Lemma identity_not_exact :
  Float64.is_float potential_0_350 = true /\
  Float64.is_finite potential_0_350 = true /\
  "Ag/AgCl (Sat'd KCl)" ∈ REFERENCE_POTENTIALS_keys /\
  convert_potential potential_0_350 "Ag/AgCl (Sat'd KCl)" "Ag/AgCl (Sat'd KCl)"
    = Return (Float64.mk 6305039478318693 (-54)) /\
  Float64.eqb (Float64.mk 6305039478318693 (-54)) potential_0_350 = false.
Proof.
  split; [reflexivity|]. split; [reflexivity|].
  split; [apply (bool_decide_unpack _); vm_compute; exact I|].
  split; vm_compute; reflexivity.
Qed.

(** C3, amended.  Converting a finite potential from an electrode of the
    table to itself gives back the potential up to the rounding of the
    two operations: the result is finite and differs from [v] by at most
    [2^-51 * max(|v|, 1)].  It is equal to [v] when the offset of the
    electrode is [0.0], as for the two hydrogen electrodes. *)
Theorem identity_within_rounding (v : float) (R : string) (a : float) :
  REFERENCE_POTENTIALS !! R = Some a ->
  Float64.is_float v = true ->
  Float64.is_finite v = true ->
  exists r : float,
    convert_potential v R R = Return r /\
    Float64.is_float r = true /\
    Float64.within_tolerance 51 r v = true /\
    (a = Float64.zero -> Float64.eqb r v = true).
Proof.
  intros HR Hv Hfin. eexists.
  split; [exact (convert_potential_keys v R R a a HR HR)|].
  pose proof (REFERENCE_POTENTIALS_offsets R a HR) as Ha.
  destruct (add_offset v a Hv Hfin Ha) as (H1 & Hf1 & E1).
  destruct (sub_offset _ a H1 Hf1 Ha) as (H2 & Hf2 & E2).
  apply is_offset_inv in Ha as (_ & _ & HA).
  split; [exact H2|]. split.
  - unfold Float64.within_tolerance. rewrite Hf2, Hfin. cbn [andb].
    apply Z.leb_le.
    exact (identity_error _ _ _ _ _ HA E1 E2).
  - intros ->. apply add_sub_zero. now destruct v.
Qed.

Lemma identity_within_rounding_witness :
  REFERENCE_POTENTIALS !! "Ag/AgCl (Sat'd KCl)" = Some (Float64.mk 7097673012735902 (-55)) /\
  Float64.is_float potential_0_350 = true /\
  Float64.is_finite potential_0_350 = true /\
  exists r : float,
    convert_potential potential_0_350 "Ag/AgCl (Sat'd KCl)" "Ag/AgCl (Sat'd KCl)"
      = Return r /\
    Float64.is_float r = true /\
    Float64.within_tolerance 51 r potential_0_350 = true /\
    (Float64.mk 7097673012735902 (-55) = Float64.zero ->
     Float64.eqb r potential_0_350 = true).
Proof.
  split; [vm_compute; reflexivity|]. split; [reflexivity|]. split; [reflexivity|].
  apply (identity_within_rounding potential_0_350 "Ag/AgCl (Sat'd KCl)");
    vm_compute; reflexivity.
Defined.

(** For the hydrogen electrodes the identity is exact. *)
Lemma identity_at_hydrogen :
  exists r : float,
    convert_potential potential_0_350 "SHE (Standard Hydrogen)" "SHE (Standard Hydrogen)"
      = Return r /\
    Float64.eqb r potential_0_350 = true.
Proof. exists potential_0_350. split; vm_compute; reflexivity. Qed.

(** C4.  Converting a finite potential from one electrode of the table to
    another and back gives the potential up to the rounding of the four
    operations: the result is finite and differs from [v] by at most
    [2^-49 * max(|v|, 1)]. *)
Theorem round_trip_within_tolerance (v : float) (A B : string) :
  A ∈ REFERENCE_POTENTIALS_keys ->
  B ∈ REFERENCE_POTENTIALS_keys ->
  Float64.is_float v = true ->
  Float64.is_finite v = true ->
  exists t r : float,
    convert_potential v A B = Return t /\
    convert_potential t B A = Return r /\
    Float64.is_float r = true /\
    Float64.within_tolerance 49 r v = true.
Proof.
  intros HA HB Hv Hfin.
  apply REFERENCE_POTENTIALS_is_key in HA as [a Ha].
  apply REFERENCE_POTENTIALS_is_key in HB as [b Hb].
  do 2 eexists.
  split; [exact (convert_potential_keys v A B a b Ha Hb)|].
  split; [exact (convert_potential_keys _ B A b a Hb Ha)|].
  apply REFERENCE_POTENTIALS_offsets in Ha, Hb.
  destruct (add_offset v a Hv Hfin Ha) as (H1 & Hf1 & E1).
  destruct (sub_offset _ b H1 Hf1 Hb) as (H2 & Hf2 & E2).
  destruct (add_offset _ b H2 Hf2 Hb) as (H3 & Hf3 & E3).
  destruct (sub_offset _ a H3 Hf3 Ha) as (H4 & Hf4 & E4).
  apply is_offset_inv in Ha as (_ & _ & HA). apply is_offset_inv in Hb as (_ & _ & HB).
  split; [exact H4|].
  unfold Float64.within_tolerance. rewrite Hf4, Hfin. cbn [andb].
  apply Z.leb_le.
  exact (round_trip_error _ _ _ _ _ _ _ _ HA HB E1 E2 E3 E4).
Qed.

Lemma round_trip_within_tolerance_witness :
  ("Ag/AgCl (Sat'd KCl)" ∈ REFERENCE_POTENTIALS_keys) /\
  ("Calomel (Sat'd KCl)" ∈ REFERENCE_POTENTIALS_keys) /\
  Float64.is_float potential_0_350 = true /\
  Float64.is_finite potential_0_350 = true /\
  exists t r : float,
    convert_potential potential_0_350 "Ag/AgCl (Sat'd KCl)" "Calomel (Sat'd KCl)" = Return t /\
    convert_potential t "Calomel (Sat'd KCl)" "Ag/AgCl (Sat'd KCl)" = Return r /\
    Float64.is_float r = true /\
    Float64.within_tolerance 49 r potential_0_350 = true.
Proof.
  assert (H1 : "Ag/AgCl (Sat'd KCl)" ∈ REFERENCE_POTENTIALS_keys)
    by (apply (bool_decide_unpack _); vm_compute; exact I).
  assert (H2 : "Calomel (Sat'd KCl)" ∈ REFERENCE_POTENTIALS_keys)
    by (apply (bool_decide_unpack _); vm_compute; exact I).
  split; [exact H1|]. split; [exact H2|]. split; [reflexivity|]. split; [reflexivity|].
  exact (round_trip_within_tolerance potential_0_350 _ _ H1 H2 eq_refl eq_refl).
Defined.

(** The tolerance of the round trip is absolute below one volt: a
    potential of [2^-70] V converted from SHE to the saturated calomel
    electrode and back is [0.0]. *)
Lemma round_trip_absorbs_small :
  exists t : float,
    convert_potential (Float64.mk 4503599627370496 (-122))
      "SHE (Standard Hydrogen)" "Calomel (Sat'd KCl)" = Return t /\
    convert_potential t "Calomel (Sat'd KCl)" "SHE (Standard Hydrogen)"
      = Return Float64.zero.
Proof.
  exists (S754_finite true 8682940081570316 (-55)).
  split; vm_compute; reflexivity.
Qed.

(** NaN is not a number and is equal to nothing: the result of the
    conversion is NaN again, and [nan == nan] is false.  This is why the
    identity below is stated for the potentials that are not NaN. *)
Lemma hydrogen_identity_fails_at_nan :
  convert_potential S754_nan "NHE (Normal Hydrogen)" "SHE (Standard Hydrogen)"
    = Return S754_nan /\
  Float64.eqb S754_nan S754_nan = false.
Proof. split; vm_compute; reflexivity. Qed.

(** C6.  Converting from NHE to SHE gives back a float equal to the
    potential, for every potential that is a number (finite or infinite,
    of either sign), because both electrodes have offset [0.0]. *)
Theorem hydrogen_identity (x : float) :
  Float64.is_nan x = false ->
  exists r : float,
    convert_potential x "NHE (Normal Hydrogen)" "SHE (Standard Hydrogen)" = Return r /\
    Float64.eqb r x = true.
Proof.
  intros Hx. eexists. split.
  - apply convert_potential_keys; vm_compute; reflexivity.
  - now apply add_sub_zero.
Qed.

Lemma hydrogen_identity_witness :
  Float64.is_nan (S754_infinity true) = false /\
  exists r : float,
    convert_potential (S754_infinity true) "NHE (Normal Hydrogen)" "SHE (Standard Hydrogen)"
      = Return r /\
    Float64.eqb r (S754_infinity true) = true.
Proof.
  split; [reflexivity|].
  apply (hydrogen_identity (S754_infinity true)). reflexivity.
Defined.

(** C5, as stated, fails: [0.350 + 0.197] is [0.5469999999999999], which
    is not the float [0.547]. *)
Lemma worked_example_not_exact :
  Float64.nearest_thousandth 350 potential_0_350 = true /\
  Float64.nearest_thousandth 547 potential_0_547 = true /\
  convert_potential potential_0_350 "Ag/AgCl (Sat'd KCl)" "SHE (Standard Hydrogen)"
    = Return (Float64.mk 4926937992343322 (-53)) /\
  Float64.eqb (Float64.mk 4926937992343322 (-53)) potential_0_547 = false.
Proof. repeat split; vm_compute; reflexivity. Qed.

(** C5, amended.  [convert(0.350, Ag/AgCl, SHE)] is the float next below
    [0.547] and [convert(0.547, SHE, Ag/AgCl)] is the float next above
    [0.350]; in the three-decimal format of the page they read [0.547] and
    [0.350]. *)
Theorem worked_example_to_three_decimals :
  exists r1 r2 : float,
    convert_potential potential_0_350 "Ag/AgCl (Sat'd KCl)" "SHE (Standard Hydrogen)"
      = Return r1 /\
    r1 = SFpred Float64.prec Float64.emax potential_0_547 /\
    format_3f r1 = "0.547" /\
    convert_potential potential_0_547 "SHE (Standard Hydrogen)" "Ag/AgCl (Sat'd KCl)"
      = Return r2 /\
    r2 = SFsucc Float64.prec Float64.emax potential_0_350 /\
    format_3f r2 = "0.350".
Proof. do 2 eexists. repeat split; vm_compute; reflexivity. Qed.

(* ===================================================================== *)
(** * Errors                                                              *)
(* ===================================================================== *)

Lemma not_key_lookup (k : string) :
  k ∉ REFERENCE_POTENTIALS_keys <-> REFERENCE_POTENTIALS !! k = None.
Proof.
  rewrite <- REFERENCE_POTENTIALS_is_key, eq_None_not_Some. reflexivity.
Qed.

Lemma convert_potential_raises (p : float) (from_ref to_ref : string) (e : exn) :
  convert_potential p from_ref to_ref = Raise e ->
  ((from_ref ∉ REFERENCE_POTENTIALS_keys) /\ e = KeyError from_ref) \/
  ((from_ref ∈ REFERENCE_POTENTIALS_keys) /\ (to_ref ∉ REFERENCE_POTENTIALS_keys) /\
   e = KeyError to_ref).
Proof.
  unfold convert_potential, dict_getitem.
  destruct (REFERENCE_POTENTIALS !! from_ref) as [a|] eqn:Ha; cbn.
  - destruct (REFERENCE_POTENTIALS !! to_ref) as [b|] eqn:Hb; cbn; [discriminate|].
    intros [= <-]. right. split; [|split; [|reflexivity]].
    + apply REFERENCE_POTENTIALS_is_key. eauto.
    + now apply not_key_lookup.
  - intros [= <-]. left. split; [|reflexivity]. now apply not_key_lookup.
Qed.

(** C7.  The converter raises exactly when one of the two names is not a
    key of the table; what it raises is the [KeyError] of such a name; and
    a run of the script that the Convert button started and in which the
    converter raises ends with this exception and the history as it was. *)
Theorem convert_potential_KeyError (p : float) (from_ref to_ref : string) :
  ((exists e, convert_potential p from_ref to_ref = Raise e) <->
   ((from_ref ∉ REFERENCE_POTENTIALS_keys) \/ (to_ref ∉ REFERENCE_POTENTIALS_keys))) /\
  (forall e, convert_potential p from_ref to_ref = Raise e ->
     exists k, e = KeyError k /\ (k ∉ REFERENCE_POTENTIALS_keys) /\
               (k = from_ref \/ k = to_ref)) /\
  (forall e w now ss fuel,
     potential_value w = p ->
     applied_from_ref w ss = from_ref ->
     applied_to_ref w ss = to_ref ->
     convert_potential p from_ref to_ref = Raise e ->
     exists st,
       run_script (S fuel) w (Some Convert) now ss = Some (Raise e, st) /\
       ss_conversion_history (session st) = ss_conversion_history ss /\
       history (session st) = history ss).
Proof.
  split; [split|split].
  - intros [e He]. apply convert_potential_raises in He as [[H _]|(_ & H & _)]; auto.
  - intros H.
    destruct (REFERENCE_POTENTIALS !! from_ref) as [a|] eqn:Ha.
    + destruct H as [H|H].
      * exfalso. apply H, REFERENCE_POTENTIALS_is_key. eauto.
      * apply not_key_lookup in H. exists (KeyError to_ref).
        unfold convert_potential, dict_getitem. rewrite Ha. cbn. now rewrite H.
    + exists (KeyError from_ref).
      unfold convert_potential, dict_getitem. now rewrite Ha.
  - intros e He. apply convert_potential_raises in He as [[H ->]|(_ & H & ->)];
      eexists; (split; [reflexivity|]); auto.
  - intros e w now ss fuel <- <- <- He.
    pose proof (app_convert_raise w now ss e He) as Happ.
    exists {| session := settled ss; page := [] |}. cbn [run_script]. rewrite Happ.
    split; [|split; reflexivity].
    apply convert_potential_raises in He as [[_ ->]|(_ & _ & ->)]; reflexivity.
Qed.

Lemma convert_potential_KeyError_witness :
  exists st,
    run_script 1
      {| potential_value := potential_0_350; from_ref := "Unobtainium";
         to_ref := "SHE (Standard Hydrogen)" |}
      (Some Convert) "09:30:00" empty_session
    = Some (Raise (KeyError "Unobtainium"), st) /\
    ss_conversion_history (session st) = None /\
    history (session st) = [].
Proof.
  apply (proj2 (proj2 (convert_potential_KeyError potential_0_350 "Unobtainium"
                         "SHE (Standard Hydrogen)")) (KeyError "Unobtainium")
           {| potential_value := potential_0_350; from_ref := "Unobtainium";
              to_ref := "SHE (Standard Hydrogen)" |}
           "09:30:00" empty_session 0%nat);
    vm_compute; reflexivity.
Defined.

(* ===================================================================== *)
(** * The history                                                         *)
(* ===================================================================== *)

(** C8.  A run that the Convert button started and whose conversion
    succeeds ends normally with exactly one record more, appended after
    the earlier ones; after the Clear button the history is empty,
    whatever it held. *)
Theorem history_contract (w : widgets) (now : string) (ss : session_state)
    (fuel : nat) :
  (forall c,
     convert_potential (potential_value w) (applied_from_ref w ss) (applied_to_ref w ss)
       = Return c ->
     exists st,
       run_script (S fuel) w (Some Convert) now ss = Some (Return tt, st) /\
       page st
         = [ Success (success_body (potential_value w) (applied_from_ref w ss) c
                        (applied_to_ref w ss));
             Dataframe (history (session st)) ] /\
       history (session st)
         = history ss ++ [conversion_record (potential_value w) (applied_from_ref w ss)
                            (applied_to_ref w ss) c now] /\
       length (history (session st)) = S (length (history ss))) /\
  (exists st,
     run_script (S (S fuel)) w (Some ClearHistory) now ss = Some (Return tt, st) /\
     history (session st) = [] /\
     length (history (session st)) = 0%nat).
Proof.
  split.
  - intros c Hc.
    destruct (run_script_convert fuel w now ss c Hc) as (st & Hrun & Hh & Hpg).
    exists st. split; [exact Hrun|]. split; [exact Hpg|]. split; [exact Hh|].
    rewrite Hh, length_app. cbn. lia.
  - destruct (app_clear w now ss) as (r & pg & h & Happ & Hh & [-> | ->]).
    + eexists. cbn [run_script]. rewrite Happ.
      split; [reflexivity|]. unfold history. cbn. now rewrite Hh.
    + destruct (app_idle w now
                  {| ss_from_ref := None; ss_to_ref := None; ss_conversion_history := h |})
        as [pg' Hidle].
      eexists. cbn [run_script]. rewrite Happ. cbn [run_script session]. rewrite Hidle.
      split; [reflexivity|]. unfold history, settled. cbn. now rewrite Hh.
Qed.

Lemma history_contract_witness :
  exists st,
    run_script 1 initial_widgets (Some Convert) "09:30:00" empty_session
      = Some (Return tt, st) /\
    page st
      = [ Success (success_body potential_0_350 "Ag/AgCl (Sat'd KCl)"
                     (Float64.mk 4926937992343322 (-53)) "SHE (Standard Hydrogen)");
          Dataframe (history (session st)) ] /\
    history (session st)
      = history empty_session
        ++ [conversion_record potential_0_350 "Ag/AgCl (Sat'd KCl)"
              "SHE (Standard Hydrogen)" (Float64.mk 4926937992343322 (-53)) "09:30:00"] /\
    length (history (session st)) = S (length (history empty_session)).
Proof.
  apply (proj1 (history_contract initial_widgets "09:30:00" empty_session 0%nat)
           (Float64.mk 4926937992343322 (-53))).
  vm_compute. reflexivity.
Defined.

(* ===================================================================== *)
(** * Swap                                                                *)
(* ===================================================================== *)

(** After the Swap button the select boxes and the session state are what
    they were: the run stores the exchanged names and asks for a rerun,
    and the rerun reads and deletes them at lines 100-106 without
    converting.  The next Convert uses the selections, not exchanged. *)
Lemma swap_is_lost (w : widgets) (now now' : string) (ss : session_state)
    (fuel fuel' : nat) (c : float) :
  ss_from_ref ss = None ->
  ss_to_ref ss = None ->
  convert_potential (potential_value w) (from_ref w) (to_ref w) = Return c ->
  exists st st',
    run_script (S (S fuel)) w (Some SwapReferences) now ss = Some (Return tt, st) /\
    session st = ss /\
    run_script (S fuel') w (Some Convert) now' (session st) = Some (Return tt, st') /\
    history (session st')
      = history ss ++ [conversion_record (potential_value w) (from_ref w) (to_ref w) c now'].
Proof.
  intros Hf Ht Hc.
  destruct ss as [f t h]. cbn in Hf, Ht. subst f t.
  set (ss := {| ss_from_ref := None; ss_to_ref := None; ss_conversion_history := h |}).
  destruct (run_script_idle fuel w now
              {| ss_from_ref := Some (to_ref w); ss_to_ref := Some (from_ref w);
                 ss_conversion_history := h |}) as [pg Hidle].
  destruct (run_script_convert fuel' w now' ss c Hc) as (st' & Hrun & Hh & _).
  exists {| session := ss; page := pg |}, st'.
  split; [|split; [reflexivity|split; assumption]].
  change (run_script (S (S fuel)) w (Some SwapReferences) now ss)
    with (match app w (Some SwapReferences) now {| session := ss; page := [] |} with
          | (Raise RerunException, st) => run_script (S fuel) w None now (session st)
          | (r, st) => Some (r, st)
          end).
  rewrite app_swap. exact Hidle.
Qed.

(** C9 (what the code does).  From the defaults (Ag/AgCl to SHE), Swap and
    then Convert records a conversion from Ag/AgCl to SHE: the exchange
    did not reach the conversion. *)
Theorem swap_then_convert_not_exchanged :
  exists st st',
    run_script 2 initial_widgets (Some SwapReferences) "09:30:00" empty_session
      = Some (Return tt, st) /\
    session st = empty_session /\
    run_script 1 initial_widgets (Some Convert) "09:30:05" (session st)
      = Some (Return tt, st') /\
    history (session st')
      = [ {| Input_Potential := "0.350 V";
             From_Reference := "Ag/AgCl (Sat'd KCl)";
             To_Reference := "SHE (Standard Hydrogen)";
             Result := "0.547 V";
             Timestamp := "09:30:05" |} ].
Proof. do 2 eexists. repeat split; vm_compute; reflexivity. Qed.

(* ===================================================================== *)
(** * Every run of the script                                             *)
(* ===================================================================== *)

Section Runs.

Arguments convert_potential : simpl never.

Ltac step_app :=
  unfold app, when, st_button, button_eqb, experimental_rerun, raise, lift,
    set_from_ref, set_to_ref, set_conversion_history, del_from_ref, del_to_ref,
    append_conversion_history, get_session, put_session, emit,
    mbind, mret, script_bind, script_ret, bind, ret;
  cbn.

Lemma history_view_settled ss : history_view (settled ss) = history_view ss.
Proof. reflexivity. Qed.

(** A run that no button started shows the history and changes nothing
    but a pending swap. *)
Lemma app_idle_page w now ss :
  app w None now {| session := ss; page := [] |}
  = (Return tt, {| session := settled ss; page := [history_view ss] |}).
Proof.
  unfold settled, history_view.
  destruct ss as [[f|] [t|] [[|r h]|]]; step_app; reflexivity.
Qed.

Lemma run_idle fuel w now ss :
  run_script (S fuel) w None now ss
  = Some (Return tt, {| session := settled ss; page := [history_view ss] |}).
Proof. cbn [run_script]. now rewrite app_idle_page. Qed.

Lemma run_swap fuel w now ss :
  run_script (S (S fuel)) w (Some SwapReferences) now ss
  = Some (Return tt, {| session := settled ss; page := [history_view ss] |}).
Proof.
  change (run_script (S (S fuel)) w (Some SwapReferences) now ss)
    with (match app w (Some SwapReferences) now {| session := ss; page := [] |} with
          | (Raise RerunException, st) => run_script (S fuel) w None now (session st)
          | (r, st) => Some (r, st)
          end).
  rewrite app_swap. cbn [session]. rewrite run_idle. reflexivity.
Qed.

(** The Clear button on a history with entries. *)
Lemma app_clear_entries w now f t r h :
  app w (Some ClearHistory) now
    {| session := {| ss_from_ref := f; ss_to_ref := t;
                     ss_conversion_history := Some (r :: h) |};
       page := [] |}
  = (Raise RerunException,
     {| session := {| ss_from_ref := None; ss_to_ref := None;
                      ss_conversion_history := Some [] |};
        page := [Dataframe (r :: h)] |}).
Proof. destruct f, t; step_app; reflexivity. Qed.

(** The Clear button is not on the page when the history has no entry:
    the run is an idle one. *)
Lemma app_clear_empty w now ss :
  history ss = [] ->
  app w (Some ClearHistory) now {| session := ss; page := [] |}
  = (Return tt, {| session := settled ss; page := [history_view ss] |}).
Proof.
  unfold settled, history_view, history.
  destruct ss as [[f|] [t|] [[|r h]|]]; cbn; try discriminate; intros _;
    step_app; reflexivity.
Qed.

Lemma run_clear fuel w now ss :
  exists st,
    run_script (S (S fuel)) w (Some ClearHistory) now ss = Some (Return tt, st) /\
    ss_from_ref (session st) = None /\ ss_to_ref (session st) = None /\
    history (session st) = [] /\
    page st = [history_view (session st)].
Proof.
  change (run_script (S (S fuel)) w (Some ClearHistory) now ss)
    with (match app w (Some ClearHistory) now {| session := ss; page := [] |} with
          | (Raise RerunException, st) => run_script (S fuel) w None now (session st)
          | (r, st) => Some (r, st)
          end).
  destruct ss as [f t [[|r h]|]].
  - rewrite app_clear_empty by reflexivity. eexists. repeat split; reflexivity.
  - rewrite app_clear_entries. cbn [session]. rewrite run_idle.
    eexists. repeat split; reflexivity.
  - rewrite app_clear_empty by reflexivity. eexists. repeat split; reflexivity.
Qed.

Lemma run_convert fuel w now ss :
  exists r st,
    run_script (S fuel) w (Some Convert) now ss = Some (r, st) /\
    ss_from_ref (session st) = None /\ ss_to_ref (session st) = None /\
    match convert_potential (potential_value w) (applied_from_ref w ss)
            (applied_to_ref w ss) with
    | Return c =>
        r = Return tt /\
        history (session st)
          = history ss ++ [conversion_record (potential_value w) (applied_from_ref w ss)
                             (applied_to_ref w ss) c now] /\
        page st
          = [ Success (success_body (potential_value w) (applied_from_ref w ss) c
                         (applied_to_ref w ss));
              history_view (session st) ]
    | Raise e =>
        r = Raise e /\ (exists k, e = KeyError k) /\
        history (session st) = history ss /\ page st = []
    end.
Proof.
  destruct (convert_potential (potential_value w) (applied_from_ref w ss)
              (applied_to_ref w ss)) as [c|e] eqn:Hc.
  - pose proof (app_convert_ok w now ss c Hc) as Happ. cbv zeta in Happ.
    do 2 eexists. cbn [run_script]. rewrite Happ.
    split; [reflexivity|]. cbn [session page ss_from_ref ss_to_ref].
    repeat split. unfold history_view. cbn [ss_conversion_history].
    destruct (history ss); reflexivity.
  - pose proof (app_convert_raise w now ss e Hc) as Happ.
    assert (Hk : exists k, e = KeyError k).
    { apply convert_potential_raises in Hc as [[_ ->]|(_ & _ & ->)]; eauto. }
    destruct Hk as [k ->].
    do 2 eexists. cbn [run_script]. rewrite Happ.
    split; [reflexivity|]. repeat split. eauto.
Qed.

Lemma run_script_fuel fuel w clicked now ss :
  run_script (S (S fuel)) w clicked now ss = run_script 2 w clicked now ss.
Proof.
  destruct clicked as [[| |]|].
  - now rewrite !run_swap.
  - destruct (convert_potential (potential_value w) (applied_from_ref w ss)
                (applied_to_ref w ss)) as [c|e] eqn:Hc.
    + pose proof (app_convert_ok w now ss c Hc) as Happ. cbv zeta in Happ.
      cbn [run_script]. now rewrite Happ.
    + pose proof (app_convert_raise w now ss e Hc) as Happ.
      apply convert_potential_raises in Hc as [[_ ->]|(_ & _ & ->)];
        cbn [run_script]; now rewrite Happ.
  - change (run_script (S (S fuel)) w (Some ClearHistory) now ss)
      with (match app w (Some ClearHistory) now {| session := ss; page := [] |} with
            | (Raise RerunException, st) => run_script (S fuel) w None now (session st)
            | (r, st) => Some (r, st)
            end).
    change (run_script 2 w (Some ClearHistory) now ss)
      with (match app w (Some ClearHistory) now {| session := ss; page := [] |} with
            | (Raise RerunException, st) => run_script 1 w None now (session st)
            | (r, st) => Some (r, st)
            end).
    destruct ss as [f t [[|r h]|]].
    + now rewrite app_clear_empty.
    + rewrite app_clear_entries. now rewrite !run_idle.
    + now rewrite app_clear_empty.
  - now rewrite !run_idle.
Qed.

(** What one action does to a session with no pending swap. *)
Lemma run_action fuel (i : interaction) ss :
  ss_from_ref ss = None -> ss_to_ref ss = None ->
  exists r st,
    run_script (S (S fuel)) (at_widgets i) (at_clicked i) (at_time i) ss = Some (r, st) /\
    ss_from_ref (session st) = None /\ ss_to_ref (session st) = None /\
    history (session st) = history_after i (history ss) /\
    (r = Return tt \/
     exists e, convert_potential (potential_value (at_widgets i)) (from_ref (at_widgets i))
                 (to_ref (at_widgets i)) = Raise e /\ r = Raise e).
Proof.
  intros Hf Ht. destruct i as [w clicked now]. cbn [at_widgets at_clicked at_time].
  unfold history_after. cbn [at_widgets at_clicked at_time].
  destruct clicked as [[| |]|].
  - rewrite run_swap. do 2 eexists. split; [reflexivity|]. repeat split. now left.
  - destruct (run_convert (S fuel) w now ss) as (r & st & Hrun & Hf' & Ht' & H).
    unfold applied_from_ref, applied_to_ref in H. rewrite Hf, Ht in H. cbn [default] in H.
    exists r, st. split; [exact Hrun|]. split; [exact Hf'|]. split; [exact Ht'|].
    destruct (convert_potential (potential_value w) (from_ref w) (to_ref w)) as [c|e].
    + destruct H as (-> & Hh & _). split; [exact Hh|]. now left.
    + destruct H as (-> & _ & Hh & _). split; [exact Hh|]. right. eauto.
  - destruct (run_clear fuel w now ss) as (st & Hrun & Hf' & Ht' & Hh & _).
    exists (Return tt), st. repeat split; try assumption. now left.
  - rewrite run_idle. do 2 eexists. split; [reflexivity|]. repeat split. now left.
Qed.

End Runs.

(* ===================================================================== *)
(** * Properties of runs and sessions                                     *)
(* ===================================================================== *)

(** X1.  Whatever the widgets, the button and the session state, the
    runner needs at most two runs of the script: with fuel for two it
    returns, more fuel changes nothing, the outcome is a normal end or a
    [KeyError] (never a pending rerun), and no pending swap is left in the
    session state. *)
Theorem run_script_settles (w : widgets) (clicked : option button) (now : string)
    (ss : session_state) (fuel : nat) :
  exists r st,
    run_script 2 w clicked now ss = Some (r, st) /\
    run_script (S (S fuel)) w clicked now ss = Some (r, st) /\
    (r = Return tt \/ exists k, r = Raise (KeyError k)) /\
    ss_from_ref (session st) = None /\
    ss_to_ref (session st) = None.
Proof.
  assert (H : exists r st,
             run_script 2 w clicked now ss = Some (r, st) /\
             (r = Return tt \/ exists k, r = Raise (KeyError k)) /\
             ss_from_ref (session st) = None /\
             ss_to_ref (session st) = None).
  { destruct clicked as [[| |]|].
    - rewrite run_swap. do 2 eexists. repeat split. now left.
    - destruct (run_convert 1 w now ss) as (r & st & Hrun & Hf & Ht & H).
      exists r, st. repeat split; try assumption.
      destruct (convert_potential _ _ _) as [c|e].
      + destruct H as [-> _]. now left.
      + destruct H as (-> & [k ->] & _). right. eauto.
    - destruct (run_clear 0 w now ss) as (st & Hrun & Hf & Ht & _).
      exists (Return tt), st. repeat split; try assumption. now left.
    - rewrite run_idle. do 2 eexists. repeat split. now left. }
  destruct H as (r & st & Hrun & Hr & Hf & Ht).
  exists r, st. rewrite (run_script_fuel fuel). auto.
Qed.



(** X13.  A click on Swap References has the effect of a run that no
    button started: the exchanged names that the click stores are read and
    deleted by the rerun it asks for, so the session state and the page
    after the click are those of an idle run. *)
Theorem swap_is_idle (w : widgets) (now : string) (ss : session_state) (fuel : nat) :
  run_script (S (S fuel)) w (Some SwapReferences) now ss
  = run_script (S fuel) w None now ss /\
  exists st,
    run_script (S (S fuel)) w (Some SwapReferences) now ss = Some (Return tt, st) /\
    ss_conversion_history (session st) = ss_conversion_history ss /\
    ss_from_ref (session st) = None /\ ss_to_ref (session st) = None /\
    page st = [history_view ss].
Proof.
  rewrite run_swap, run_idle. split; [reflexivity|].
  eexists. split; [reflexivity|]. repeat split.
Qed.

(** X3.  The history of a whole session.  From a session state with no
    pending swap, any sequence of actions is served to the end, one
    outcome per action, and the history it leaves is the one read off the
    buttons: each Convert whose conversion returns adds its record (with
    the electrodes selected at that moment), each Clear empties the list,
    and Swap, widget changes and failed conversions leave it alone. *)
Theorem session_history (fuel : nat) (acts : list interaction) (ss : session_state) :
  ss_from_ref ss = None ->
  ss_to_ref ss = None ->
  exists outs ss',
    run_session (S (S fuel)) acts ss = Some (outs, ss') /\
    length outs = length acts /\
    history ss' = foldl (fun h i => history_after i h) (history ss) acts /\
    ss_from_ref ss' = None /\ ss_to_ref ss' = None.
Proof.
  revert ss. induction acts as [|i acts IH]; intros ss Hf Ht.
  - exists [], ss. repeat split; assumption.
  - destruct (run_action fuel i ss Hf Ht) as (r & st & Hrun & Hf' & Ht' & Hh & _).
    destruct (IH (session st) Hf' Ht') as (outs & ss' & Hrest & Hlen & Hh' & Hf'' & Ht'').
    exists (r :: outs), ss'.
    cbn [run_session]. rewrite Hrun, Hrest.
    split; [reflexivity|]. split; [cbn; now rewrite Hlen|].
    split; [|split; assumption].
    cbn [foldl]. now rewrite Hh', Hh.
Qed.

Lemma session_history_witness :
  ss_from_ref empty_session = None /\
  ss_to_ref empty_session = None /\
  exists outs ss',
    run_session 2
      [ {| at_widgets := initial_widgets; at_clicked := Some Convert; at_time := "09:30:00" |};
        {| at_widgets := initial_widgets; at_clicked := Some SwapReferences;
           at_time := "09:30:05" |};
        {| at_widgets := initial_widgets; at_clicked := Some ClearHistory;
           at_time := "09:30:09" |} ] empty_session = Some (outs, ss') /\
    length outs = 3%nat /\
    history ss'
      = foldl (fun h i => history_after i h) (history empty_session)
          [ {| at_widgets := initial_widgets; at_clicked := Some Convert;
               at_time := "09:30:00" |};
            {| at_widgets := initial_widgets; at_clicked := Some SwapReferences;
               at_time := "09:30:05" |};
            {| at_widgets := initial_widgets; at_clicked := Some ClearHistory;
               at_time := "09:30:09" |} ] /\
    ss_from_ref ss' = None /\ ss_to_ref ss' = None.
Proof.
  split; [reflexivity|]. split; [reflexivity|].
  apply (session_history 0
           [ {| at_widgets := initial_widgets; at_clicked := Some Convert;
                at_time := "09:30:00" |};
             {| at_widgets := initial_widgets; at_clicked := Some SwapReferences;
                at_time := "09:30:05" |};
             {| at_widgets := initial_widgets; at_clicked := Some ClearHistory;
                at_time := "09:30:09" |} ] empty_session); reflexivity.
Defined.

(** X4.  With the selections taken from the keys of the table, as the
    select boxes offer them, no run of a session raises: every action
    ends normally, and every record of the history names two keys of the
    table. *)
Theorem session_never_raises (fuel : nat) (acts : list interaction) (ss : session_state) :
  ss_from_ref ss = None ->
  ss_to_ref ss = None ->
  Forall (fun i => from_ref (at_widgets i) ∈ REFERENCE_POTENTIALS_keys /\
                   to_ref (at_widgets i) ∈ REFERENCE_POTENTIALS_keys) acts ->
  Forall (fun r => From_Reference r ∈ REFERENCE_POTENTIALS_keys /\
                   To_Reference r ∈ REFERENCE_POTENTIALS_keys) (history ss) ->
  exists outs ss',
    run_session (S (S fuel)) acts ss = Some (outs, ss') /\
    Forall (fun r => r = Return tt) outs /\
    Forall (fun r => From_Reference r ∈ REFERENCE_POTENTIALS_keys /\
                     To_Reference r ∈ REFERENCE_POTENTIALS_keys) (history ss').
Proof.
  revert ss. induction acts as [|i acts IH]; intros ss Hf Ht Hacts Hh.
  - exists [], ss. repeat split; [constructor | assumption].
  - apply Forall_cons in Hacts as [[Hfrom Hto] Hacts].
    destruct (run_action fuel i ss Hf Ht) as (r & st & Hrun & Hf' & Ht' & Hh' & Hr).
    apply REFERENCE_POTENTIALS_is_key in Hfrom as Hfrom'. destruct Hfrom' as [a Ha].
    apply REFERENCE_POTENTIALS_is_key in Hto as Hto'. destruct Hto' as [b Hb].
    pose proof (convert_potential_keys (potential_value (at_widgets i)) _ _ a b Ha Hb) as Hc.
    assert (Hok : r = Return tt).
    { destruct Hr as [Hr|(e & He & _)]; [exact Hr|]. rewrite Hc in He. discriminate. }
    assert (Hnew : Forall (fun r => From_Reference r ∈ REFERENCE_POTENTIALS_keys /\
                                    To_Reference r ∈ REFERENCE_POTENTIALS_keys)
                     (history (session st))).
    { rewrite Hh'. unfold history_after. rewrite Hc.
      destruct (at_clicked i) as [[| |]|]; try assumption.
      - apply Forall_app. split; [assumption|].
        constructor; [|constructor]. split; assumption.
      - constructor. }
    destruct (IH (session st) Hf' Ht' Hacts Hnew) as (outs & ss' & Hrest & Houts & Hfin).
    exists (r :: outs), ss'. cbn [run_session]. rewrite Hrun, Hrest.
    split; [reflexivity|]. split; [|assumption].
    constructor; assumption.
Qed.

Lemma session_never_raises_witness :
  exists outs ss',
    run_session 2
      [ {| at_widgets := initial_widgets; at_clicked := Some SwapReferences;
           at_time := "09:30:00" |};
        {| at_widgets := initial_widgets; at_clicked := Some Convert; at_time := "09:30:05" |} ]
      empty_session = Some (outs, ss') /\
    Forall (fun r => r = Return tt) outs /\
    Forall (fun r => From_Reference r ∈ REFERENCE_POTENTIALS_keys /\
                     To_Reference r ∈ REFERENCE_POTENTIALS_keys) (history ss').
Proof.
  assert (H1 : "Ag/AgCl (Sat'd KCl)" ∈ REFERENCE_POTENTIALS_keys)
    by (apply (bool_decide_unpack _); vm_compute; exact I).
  assert (H2 : "SHE (Standard Hydrogen)" ∈ REFERENCE_POTENTIALS_keys)
    by (apply (bool_decide_unpack _); vm_compute; exact I).
  apply (session_never_raises 0
           [ {| at_widgets := initial_widgets; at_clicked := Some SwapReferences;
                at_time := "09:30:00" |};
             {| at_widgets := initial_widgets; at_clicked := Some Convert;
                at_time := "09:30:05" |} ] empty_session);
    [reflexivity | reflexivity | | constructor].
  repeat (constructor; [split; [exact H1 | exact H2]|]). constructor.
Defined.

(* ===================================================================== *)
(** * Properties of the converter                                         *)
(* ===================================================================== *)

Lemma detour_error (ONE V A B C T1 T2 T3 T4 S2 : Z) :
  0 <= A <= ONE -> 0 <= B <= ONE -> 0 <= C <= ONE ->
  Z.abs (T1 - (V + A)) * 2 ^ 53 <= Z.abs (V + A) ->
  Z.abs (T2 - (T1 - B)) * 2 ^ 53 <= Z.abs (T1 - B) ->
  Z.abs (T3 - (T2 + B)) * 2 ^ 53 <= Z.abs (T2 + B) ->
  Z.abs (T4 - (T3 - C)) * 2 ^ 53 <= Z.abs (T3 - C) ->
  Z.abs (S2 - (T1 - C)) * 2 ^ 53 <= Z.abs (T1 - C) ->
  Z.abs (T4 - S2) * 2 ^ 49 <= Z.max (Z.abs V) ONE.
Proof.
  change (2 ^ 53) with 9007199254740992. change (2 ^ 49) with 562949953421312.
  intros. lia.
Qed.

(** X5.  One conversion of a finite potential between electrodes of the
    table never overflows and is accurate: the result is a finite float
    within [2^-50 * max(|v|, 1)] of the exact value
    [v + offset(from) - offset(to)]. *)
Theorem convert_potential_accuracy (v : float) (A B : string) (a b : float) :
  REFERENCE_POTENTIALS !! A = Some a ->
  REFERENCE_POTENTIALS !! B = Some b ->
  Float64.is_float v = true ->
  Float64.is_finite v = true ->
  exists r : float,
    convert_potential v A B = Return r /\
    Float64.is_float r = true /\
    Float64.is_finite r = true /\
    Z.abs (Float64.scaled r - (Float64.scaled v + Float64.scaled a - Float64.scaled b))
      * 2 ^ 50 <= Z.max (Z.abs (Float64.scaled v)) Float64.one.
Proof.
  intros HA HB Hv Hfin. eexists.
  split; [exact (convert_potential_keys v A B a b HA HB)|].
  apply REFERENCE_POTENTIALS_offsets in HA, HB.
  destruct (add_offset v a Hv Hfin HA) as (H1 & Hf1 & E1).
  destruct (sub_offset _ b H1 Hf1 HB) as (H2 & Hf2 & E2).
  apply is_offset_inv in HA as (_ & _ & Ha). apply is_offset_inv in HB as (_ & _ & Hb).
  split; [exact H2|]. split; [exact Hf2|].
  exact (conversion_error _ _ _ _ _ _ Ha Hb E1 E2).
Qed.

Lemma convert_potential_accuracy_witness :
  exists r : float,
    convert_potential potential_0_350 "Ag/AgCl (Sat'd KCl)" "Calomel (Sat'd KCl)" = Return r /\
    Float64.is_float r = true /\
    Float64.is_finite r = true /\
    Z.abs (Float64.scaled r
           - (Float64.scaled potential_0_350
              + Float64.scaled (Float64.mk 7097673012735902 (-55))
              - Float64.scaled (Float64.mk 8682940081570316 (-55))))
      * 2 ^ 50 <= Z.max (Z.abs (Float64.scaled potential_0_350)) Float64.one.
Proof.
  apply (convert_potential_accuracy potential_0_350 "Ag/AgCl (Sat'd KCl)"
           "Calomel (Sat'd KCl)"); vm_compute; reflexivity.
Defined.

(** X6.  An infinite or NaN potential comes back unchanged from a
    conversion between electrodes of the table. *)
Theorem convert_potential_not_finite (p : float) (A B : string) :
  A ∈ REFERENCE_POTENTIALS_keys ->
  B ∈ REFERENCE_POTENTIALS_keys ->
  Float64.is_finite p = false ->
  convert_potential p A B = Return p.
Proof.
  intros HA HB Hp.
  apply REFERENCE_POTENTIALS_is_key in HA as [a Ha].
  apply REFERENCE_POTENTIALS_is_key in HB as [b Hb].
  rewrite (convert_potential_keys p A B a b Ha Hb).
  apply REFERENCE_POTENTIALS_offsets in Ha, Hb.
  now rewrite shift_not_finite.
Qed.

Lemma convert_potential_not_finite_witness :
  convert_potential (S754_infinity true) "Hg/HgO (1M NaOH)" "Calomel (3.5M KCl)"
  = Return (S754_infinity true).
Proof.
  apply (convert_potential_not_finite (S754_infinity true));
    [apply (bool_decide_unpack _); vm_compute; exact I
    |apply (bool_decide_unpack _); vm_compute; exact I
    |reflexivity].
Defined.

(** X7.  Conversions compose up to rounding: going from A to C through a
    third electrode B gives the result of the direct conversion from A to
    C within [2^-49 * max(|v|, 1)]. *)
Theorem convert_potential_detour (v : float) (A B C : string) :
  A ∈ REFERENCE_POTENTIALS_keys ->
  B ∈ REFERENCE_POTENTIALS_keys ->
  C ∈ REFERENCE_POTENTIALS_keys ->
  Float64.is_float v = true ->
  Float64.is_finite v = true ->
  exists t r d : float,
    convert_potential v A B = Return t /\
    convert_potential t B C = Return r /\
    convert_potential v A C = Return d /\
    Float64.is_finite r = true /\ Float64.is_finite d = true /\
    Z.abs (Float64.scaled r - Float64.scaled d) * 2 ^ 49
      <= Z.max (Z.abs (Float64.scaled v)) Float64.one.
Proof.
  intros HA HB HC Hv Hfin.
  apply REFERENCE_POTENTIALS_is_key in HA as [a Ha].
  apply REFERENCE_POTENTIALS_is_key in HB as [b Hb].
  apply REFERENCE_POTENTIALS_is_key in HC as [c Hc].
  do 3 eexists.
  split; [exact (convert_potential_keys v A B a b Ha Hb)|].
  split; [exact (convert_potential_keys _ B C b c Hb Hc)|].
  split; [exact (convert_potential_keys v A C a c Ha Hc)|].
  apply REFERENCE_POTENTIALS_offsets in Ha, Hb, Hc.
  destruct (add_offset v a Hv Hfin Ha) as (H1 & Hf1 & E1).
  destruct (sub_offset _ b H1 Hf1 Hb) as (H2 & Hf2 & E2).
  destruct (add_offset _ b H2 Hf2 Hb) as (H3 & Hf3 & E3).
  destruct (sub_offset _ c H3 Hf3 Hc) as (H4 & Hf4 & E4).
  destruct (sub_offset _ c H1 Hf1 Hc) as (H5 & Hf5 & E5).
  apply is_offset_inv in Ha as (_ & _ & HA). apply is_offset_inv in Hb as (_ & _ & HB).
  apply is_offset_inv in Hc as (_ & _ & HC).
  split; [exact Hf4|]. split; [exact Hf5|].
  exact (detour_error _ _ _ _ _ _ _ _ _ _ HA HB HC E1 E2 E3 E4 E5).
Qed.

Lemma convert_potential_detour_witness :
  exists t r d : float,
    convert_potential potential_0_350 "Ag/AgCl (Sat'd KCl)" "Calomel (Sat'd KCl)" = Return t /\
    convert_potential t "Calomel (Sat'd KCl)" "Hg/HgO (1M NaOH)" = Return r /\
    convert_potential potential_0_350 "Ag/AgCl (Sat'd KCl)" "Hg/HgO (1M NaOH)" = Return d /\
    Float64.is_finite r = true /\ Float64.is_finite d = true /\
    Z.abs (Float64.scaled r - Float64.scaled d) * 2 ^ 49
      <= Z.max (Z.abs (Float64.scaled potential_0_350)) Float64.one.
Proof.
  apply (convert_potential_detour potential_0_350 "Ag/AgCl (Sat'd KCl)"
           "Calomel (Sat'd KCl)" "Hg/HgO (1M NaOH)");
    try reflexivity; apply (bool_decide_unpack _); vm_compute; exact I.
Defined.

(** X8.  The identity [convert(v, R, R) == v] holds for every finite
    potential exactly for the electrodes of offset [0.0]; for every other
    electrode of the table the least positive float [2^-1074] comes back
    as [0.0]. *)
Theorem identity_exact_iff (R : string) (a : float) :
  REFERENCE_POTENTIALS !! R = Some a ->
  ((forall v : float,
       Float64.is_float v = true -> Float64.is_finite v = true ->
       exists r : float, convert_potential v R R = Return r /\ Float64.eqb r v = true)
   <-> a = Float64.zero) /\
  (a <> Float64.zero ->
   convert_potential least_positive R R = Return Float64.zero /\
   Float64.eqb Float64.zero least_positive = false).
Proof.
  intros HR.
  assert (Hback : a <> Float64.zero ->
                  convert_potential least_positive R R = Return Float64.zero).
  { intros Hnz. rewrite (convert_potential_keys _ R R a a HR HR).
    apply REFERENCE_POTENTIALS_lookup in HR.
    unfold REFERENCE_POTENTIALS_items in HR.
    repeat (apply elem_of_cons in HR as [HR|HR];
            [injection HR as -> ->;
             first [now contradiction Hnz | vm_compute; reflexivity]|]).
    now apply elem_of_nil in HR. }
  split; [split|].
  - intros H. destruct (H least_positive eq_refl eq_refl) as (r & Hc & He).
    destruct a as [[|]| | |s m e]; try reflexivity;
      (rewrite Hback in Hc by discriminate; injection Hc as <-;
       vm_compute in He; discriminate).
  - intros -> v Hv Hfin. eexists.
    split; [exact (convert_potential_keys v R R _ _ HR HR)|].
    apply add_sub_zero. now destruct v.
  - intros Hnz. split; [now apply Hback | reflexivity].
Qed.

Lemma identity_exact_iff_witness :
  REFERENCE_POTENTIALS !! "Calomel (Sat'd KCl)" = Some (Float64.mk 8682940081570316 (-55)) /\
  ((forall v : float,
       Float64.is_float v = true -> Float64.is_finite v = true ->
       exists r : float,
         convert_potential v "Calomel (Sat'd KCl)" "Calomel (Sat'd KCl)" = Return r /\
         Float64.eqb r v = true)
   <-> Float64.mk 8682940081570316 (-55) = Float64.zero) /\
  convert_potential least_positive "Calomel (Sat'd KCl)" "Calomel (Sat'd KCl)"
    = Return Float64.zero /\
  Float64.eqb Float64.zero least_positive = false.
Proof.
  assert (HR : REFERENCE_POTENTIALS !! "Calomel (Sat'd KCl)"
               = Some (Float64.mk 8682940081570316 (-55))) by (vm_compute; reflexivity).
  split; [exact HR|].
  destruct (identity_exact_iff "Calomel (Sat'd KCl)" _ HR) as [Hiff Hback].
  split; [exact Hiff|]. apply Hback. discriminate.
Defined.

(** X9.  Which name the [KeyError] carries: an unknown source name is
    reported whatever the target name is, and the target name only when
    the source name is a key. *)
Theorem convert_potential_KeyError_order (p : float) (from_ref to_ref : string) :
  ((from_ref ∉ REFERENCE_POTENTIALS_keys) ->
   convert_potential p from_ref to_ref = Raise (KeyError from_ref)) /\
  ((from_ref ∈ REFERENCE_POTENTIALS_keys) -> (to_ref ∉ REFERENCE_POTENTIALS_keys) ->
   convert_potential p from_ref to_ref = Raise (KeyError to_ref)).
Proof.
  unfold convert_potential, dict_getitem. split.
  - intros H. apply not_key_lookup in H. now rewrite H.
  - intros Hf Ht. apply REFERENCE_POTENTIALS_is_key in Hf as [a Ha].
    apply not_key_lookup in Ht. rewrite Ha. cbn. now rewrite Ht.
Qed.

Lemma convert_potential_KeyError_order_witness :
  convert_potential potential_0_350 "Unobtainium" "Kryptonite"
  = Raise (KeyError "Unobtainium").
Proof.
  apply (proj1 (convert_potential_KeyError_order potential_0_350 "Unobtainium" "Kryptonite")).
  apply (bool_decide_unpack _). vm_compute. exact I.
Defined.

(* ===================================================================== *)
(** * Properties of the three-decimal format                              *)
(* ===================================================================== *)

Lemma bounded_normal (m : positive) (e : Z) :
  bounded Float64.prec Float64.emax m e = true -> -1074 < e -> 2 ^ 52 <= Zpos m.
Proof.
  unfold bounded, canonical_mantissa. intros H He.
  apply andb_true_iff in H as [Hc _]. apply Z.eqb_eq in Hc. rewrite fexp_eq in Hc.
  pose proof (digits2_pos_bounds m) as [Hm _].
  replace (Z.pos (digits2_pos m)) with 53 in Hm by lia. exact Hm.
Qed.

(** Rounding [N / d] to the nearest integer when [N] is within less than
    half of [d] of the multiple [n * d]. *)
Lemma nearest_multiple (N d n : Z) :
  0 < d -> 2 * Z.abs (N - n * d) < d ->
  match 2 * (N mod d) ?= d with
  | Lt => N / d
  | Gt => N / d + 1
  | Eq => if Z.even (N / d) then N / d else N / d + 1
  end = n.
Proof.
  intros Hd Hn.
  destruct (Z.le_gt_cases 0 (N - n * d)) as [Hpos|Hneg].
  - assert (Hq : N / d = n) by (symmetry; apply (Z.div_unique N d n (N - n * d)); lia).
    assert (Hr : N mod d = N - n * d)
      by (symmetry; apply (Z.mod_unique N d n (N - n * d)); lia).
    rewrite Hq, Hr.
    destruct (Z.compare_spec (2 * (N - n * d)) d); lia.
  - assert (Hq : N / d = n - 1)
      by (symmetry; apply (Z.div_unique N d (n - 1) (N - n * d + d)); lia).
    assert (Hr : N mod d = N - n * d + d)
      by (symmetry; apply (Z.mod_unique N d (n - 1) (N - n * d + d)); lia).
    rewrite Hq, Hr.
    destruct (Z.compare_spec (2 * (N - n * d + d)) d); lia.
Qed.

(** Rounding [N / d] to the nearest integer is off by at most half. *)
Lemma nearest_within_half (N d : Z) :
  0 < d ->
  let t := match 2 * (N mod d) ?= d with
           | Lt => N / d
           | Gt => N / d + 1
           | Eq => if Z.even (N / d) then N / d else N / d + 1
           end in
  2 * Z.abs (t * d - N) <= d /\ (0 <= N -> 0 <= t).
Proof.
  intros Hd. cbv zeta.
  pose proof (Z.div_mod N d ltac:(lia)) as Hdm.
  pose proof (Z.mod_pos_bound N d Hd) as Hmod.
  assert (Hq : 0 <= N -> 0 <= N / d) by (intros; apply Z.div_pos; lia).
  destruct (Z.compare_spec (2 * (N mod d)) d) as [H|H|H];
    [destruct (Z.even (N / d))| |]; split; try nia; intros HN; specialize (Hq HN); lia.
Qed.

Lemma zfill3_length (k : Z) :
  0 <= k < 1000 -> String.length (zfill3 (digits k)) = 3%nat.
Proof.
  intros Hk.
  assert (H : forallb (fun k => Nat.eqb (String.length (zfill3 (digits k))) 3) (seqZ 0 1000)
              = true) by (vm_compute; reflexivity).
  rewrite forallb_forall in H. apply Nat.eqb_eq, H.
  apply list_elem_of_In, elem_of_seqZ. lia.
Qed.

(** X10.  Printing recovers a three-decimal literal: when [x] is the
    float of the decimal [n / 1000] and [n] is below [10^15], the format
    [.3f] prints exactly the digits of [n]. *)
Theorem format_3f_literal (n : Z) (x : float) :
  Float64.nearest_thousandth n x = true ->
  n < 10 ^ 15 ->
  format_3f x = digits (n / 1000) +:+ "." +:+ zfill3 (digits (n mod 1000)).
Proof.
  unfold Float64.nearest_thousandth.
  destruct x as [[|]| | |[|] m e]; try discriminate.
  - intros H _. apply Z.eqb_eq in H. subst n. reflexivity.
  - intros H Hn.
    apply andb_true_iff in H as [H _]. apply andb_true_iff in H as [H Hd].
    apply andb_true_iff in H as [Hx He].
    apply Z.ltb_lt in He, Hd.
    assert (Hbig : 10 <= - e).
    { destruct (Z.le_gt_cases 10 (- e)) as [|Hsmall]; [assumption|exfalso].
      pose proof (bounded_normal m e Hx ltac:(lia)) as Hm.
      assert (Hp : 2 ^ (- e) <= 2 ^ 9) by (apply Z.pow_le_mono_r; lia).
      assert (Hp0 : 0 < 2 ^ (- e)) by (apply Z.pow_pos_nonneg; lia).
      change (2 ^ 9) with 512 in Hp. change (2 ^ 52) with 4503599627370496 in Hm.
      change (10 ^ 15) with 1000000000000000 in Hn.
      generalize dependent (2 ^ (- e)). intros d Hd Hp Hp0.
      assert (n * d <= 1000000000000000 * 512) by nia. lia. }
    assert (Hd1024 : 2 ^ 10 <= 2 ^ (- e)) by (apply Z.pow_le_mono_r; lia).
    change (2 ^ 10) with 1024 in Hd1024.
    assert (Ht : thousandths m e = n).
    { unfold thousandths. destruct (Z.leb_spec 0 e); [lia|].
      cbv zeta. apply nearest_multiple; lia. }
    unfold format_3f. rewrite Ht. reflexivity.
Qed.

Lemma format_3f_literal_witness :
  format_3f potential_0_547 = digits (547 / 1000) +:+ "." +:+ zfill3 (digits (547 mod 1000)).
Proof.
  apply (format_3f_literal 547 potential_0_547); vm_compute; reflexivity.
Defined.

(** X11.  What the format [.3f] prints for a finite float [m * 2^e]: a
    sign, the digits of [t / 1000], a point and exactly three digits of
    [t mod 1000], where the number of thousandths [t] is within one half
    of [1000 * m * 2^e] (and equal to it when [e >= 0]). *)
Theorem format_3f_rounds (s : bool) (m : positive) (e : Z) :
  exists t : Z,
    format_3f (S754_finite s m e)
      = (if s then "-" else "") +:+ digits (t / 1000) +:+ "." +:+ zfill3 (digits (t mod 1000)) /\
    String.length (zfill3 (digits (t mod 1000))) = 3%nat /\
    0 <= t /\
    (0 <= e -> t = 1000 * Zpos m * 2 ^ e) /\
    (e < 0 -> 2 * Z.abs (t * 2 ^ (- e) - 1000 * Zpos m) <= 2 ^ (- e)).
Proof.
  exists (thousandths m e).
  split; [reflexivity|].
  split; [apply zfill3_length, Z.mod_pos_bound; lia|].
  unfold thousandths. destruct (Z.leb_spec 0 e) as [He|He].
  - split; [|split; [reflexivity|lia]].
    apply Z.mul_nonneg_nonneg; [lia|apply Z.pow_nonneg; lia].
  - cbv zeta.
    assert (Hd : 0 < 2 ^ (- e)) by (apply Z.pow_pos_nonneg; lia).
    destruct (nearest_within_half (1000 * Zpos m) (2 ^ (- e)) Hd) as [H1 H2].
    split; [apply H2; lia|]. split; [lia|]. intros _. exact H1.
Qed.

(** X12.  The sidebar lists the sixteen electrodes in the order of the
    source; every row shows a key of the table beside the format of its
    offset, and what is shown are the three decimals of the literal in
    the source. *)
Theorem sidebar_rows_table :
  sidebar_rows.*1 = REFERENCE_POTENTIALS_keys /\
  (forall k shown, (k, shown) ∈ sidebar_rows ->
     exists v, REFERENCE_POTENTIALS !! k = Some v /\ shown = format_3f v) /\
  Forall2 (fun row kn =>
             row.1 = kn.1 /\
             row.2 = digits (kn.2 / 1000) +:+ "." +:+ zfill3 (digits (kn.2 mod 1000)))
    sidebar_rows REFERENCE_POTENTIALS_millivolts.
Proof.
  split; [reflexivity|]. split.
  - intros k shown Hin.
    assert (Hrows : sidebar_rows
                    = (fun kv : string * float => (kv.1, format_3f kv.2))
                        <$> REFERENCE_POTENTIALS_items) by reflexivity.
    rewrite Hrows in Hin. apply list_elem_of_fmap in Hin as ([k' v] & [= -> ->] & Hin).
    exists v. split; [|reflexivity]. now apply REFERENCE_POTENTIALS_lookup.
  - unfold sidebar_rows, REFERENCE_POTENTIALS_millivolts.
    repeat (constructor; [split; vm_compute; reflexivity|]).
    constructor.
Qed.
